(** * webstruct.wapiti: feature vocabulary, row encoder and template compiler

    A shallow embedding of [webstruct/wapiti.py].  Python [str] values are
    Rocq [string]s; a character is its code point, and the model covers the
    code points below 256.  Python dictionaries whose key order can matter
    are association lists, the vocabulary ([vocabulary_]) is a [gmap], key
    sets are [gset]s.  Exceptions are values of [exn] carried by [result]. *)

From Stdlib Require Import Ascii DecimalString.
From Stdlib Require DecimalNat DecimalFacts.
From stdpp Require Import gmap strings list fin_maps.

Local Open Scope string_scope.
Local Open Scope list_scope.

(** ** Exceptions and the error monad *)

Inductive exn : Type :=
| KeyError (key : string)
| TypeError
| AttributeError
| ValueError (msg : string)
| AssertionError
| IndexError
| ExternalError (code : nat).

Inductive result (A : Type) : Type :=
| OK (a : A)
| Raise (e : exn).
Arguments OK {A} a.
Arguments Raise {A} e.

Definition rbind {A B} (r : result A) (k : A → result B) : result B :=
  match r with
  | OK a => k a
  | Raise e => Raise e
  end.

Notation "'let*' x ':=' r 'in' k" := (rbind r (fun x => k))
  (at level 10, x pattern, r at level 100, k at level 200).

(** [[f(x) for x in xs]] where [f] may raise: the first exception wins. *)
Fixpoint rmap {A B} (f : A → result B) (xs : list A) : result (list B) :=
  match xs with
  | [] => OK []
  | x :: xs' =>
      let* y := f x in
      let* ys := rmap f xs' in
      OK (y :: ys)
  end.

(** ** Python string primitives *)

Module Py.

Definition ord (c : ascii) : N := N_of_ascii c.

(** [str.isspace] on one character (also the class [\s] of a Unicode
    pattern): TAB..CR, FS..US, SPACE, NEL and NBSP. *)
Definition isspace (c : ascii) : bool :=
  let n := ord c in
  ((9 <=? n) && (n <=? 13) || (28 <=? n) && (n <=? 32)
   || (n =? 133) || (n =? 160))%N.

(** The class [\d] of a Unicode pattern: decimal digits. *)
Definition isdecimal (c : ascii) : bool :=
  let n := ord c in ((48 <=? n) && (n <=? 57))%N.

(** One character of [str.isdigit]: decimal digits and the superscript
    digits of Latin-1 (code points 178, 179 and 185). *)
Definition isdigit_char (c : ascii) : bool :=
  let n := ord c in
  (isdecimal c || (n =? 178) || (n =? 179) || (n =? 185))%N.

Fixpoint forallb_str (p : ascii → bool) (s : string) : bool :=
  match s with
  | EmptyString => true
  | String c s' => p c && forallb_str p s'
  end.

(** [s.isdigit()]: non-empty and made of digits only. *)
Definition isdigit (s : string) : bool :=
  match s with
  | EmptyString => false
  | _ => forallb_str isdigit_char s
  end.

(** Line boundaries of [str.splitlines]: LF, VT, FF, CR, FS, GS, RS, NEL
    (and CR LF, taken as one boundary). *)
Definition islinebreak (c : ascii) : bool :=
  let n := ord c in
  ((10 <=? n) && (n <=? 13) || (28 <=? n) && (n <=? 30) || (n =? 133))%N.

Definition LF : ascii := "010"%char.
Definition CR : ascii := "013"%char.

(** [s.splitlines()] (without [keepends]): a final boundary does not open
    an empty last line. *)
Fixpoint splitlines (s : string) : list string :=
  match s with
  | EmptyString => []
  | String c s' =>
      if islinebreak c then
        match s' with
        | String c' s'' =>
            if Ascii.eqb c CR && Ascii.eqb c' LF
            then EmptyString :: splitlines s''
            else EmptyString :: splitlines s'
        | EmptyString => [EmptyString]
        end
      else
        match splitlines s' with
        | [] => [String c EmptyString]
        | l :: ls => String c l :: ls
        end
  end.

(** [sep.join(xs)] *)
Fixpoint join (sep : string) (xs : list string) : string :=
  match xs with
  | [] => EmptyString
  | [x] => x
  | x :: xs' => x +:+ sep +:+ join sep xs'
  end.

(** The longest prefix of [s] whose characters satisfy [p], and the rest. *)
Fixpoint span (p : ascii → bool) (s : string) : string * string :=
  match s with
  | EmptyString => (EmptyString, EmptyString)
  | String c s' =>
      if p c then let '(a, b) := span p s' in (String c a, b)
      else (EmptyString, s)
  end.

Definition lstrip (s : string) : string := snd (span isspace s).

(** [s.rstrip()] *)
Fixpoint rstrip (s : string) : string :=
  match s with
  | EmptyString => EmptyString
  | String c s' =>
      match rstrip s' with
      | EmptyString => if isspace c then EmptyString else String c EmptyString
      | r => String c r
      end
  end.

Definition strip (s : string) : string := rstrip (lstrip s).

(** [s.startswith(c)] for a one-character prefix. *)
Definition startswith (c : ascii) (s : string) : bool :=
  match s with
  | String c' _ => Ascii.eqb c' c
  | EmptyString => false
  end.

(** [s.split(sep)] for a one-character separator. *)
Fixpoint split (sep : ascii) (s : string) : list string :=
  match s with
  | EmptyString => [EmptyString]
  | String c s' =>
      if Ascii.eqb c sep then EmptyString :: split sep s'
      else match split sep s' with
           | [] => [String c EmptyString]
           | w :: ws => String c w :: ws
           end
  end.

(** [s.split()] and [s.rsplit()] without arguments: the maximal runs of
    characters that are not whitespace. *)
Fixpoint fields_go (cur : option string) (s : string) : list string :=
  match s with
  | EmptyString => match cur with Some w => [w] | None => [] end
  | String c s' =>
      if isspace c then
        match cur with
        | Some w => w :: fields_go None s'
        | None => fields_go None s'
        end
      else
        match cur with
        | Some w => fields_go (Some (w +:+ String c EmptyString)) s'
        | None => fields_go (Some (String c EmptyString)) s'
        end
  end.

Definition rsplit (s : string) : list string := fields_go None s.

(** [xs[-1]] *)
Definition last_item {A} (xs : list A) : result A :=
  match last xs with
  | Some x => OK x
  | None => Raise IndexError
  end.

(** [str(n)] for a non-negative integer. *)
Definition str_of_nat (n : nat) : string :=
  NilEmpty.string_of_uint (Nat.to_uint n).

(** [c in s] for a character [c]. *)
Fixpoint contains (c : ascii) (s : string) : bool :=
  match s with
  | EmptyString => false
  | String c' s' => Ascii.eqb c' c || contains c s'
  end.

(** [s.endswith(c)] for a one-character suffix. *)
Fixpoint endswith (c : ascii) (s : string) : bool :=
  match s with
  | EmptyString => false
  | String c' EmptyString => Ascii.eqb c' c
  | String _ s' => endswith c s'
  end.

(** Truth value of a string. *)
Definition truthy (s : string) : bool :=
  match s with EmptyString => false | _ => true end.

End Py.

(** ** The macro pattern

    [WAPITI_MACRO_PATTERN] is, with the verbose-mode layout removed,
    [(?P<macro>%[xXtTmM])\[\s*(?P<offset>[-]?\d+)\s*,\s*(?P<column>[^\],\s]+)\s*(?P<rest>[\],])].
    Each greedy repetition is followed by a character class disjoint from
    its own, so matching at a position is a left-to-right scan. *)

Module Re.

(** The named groups of a match ([m.groupdict()]). *)
Record groups : Type := Groups {
  macro : string;
  offset : string;
  column : string;
  rest : string
}.

(** [[xXtTmM]] *)
Definition is_macro_letter (c : ascii) : bool :=
  match c with
  | "x" | "X" | "t" | "T" | "m" | "M" => true
  | _ => false
  end%char.

(** [[^\],\s]] *)
Definition is_column_char (c : ascii) : bool :=
  negb (Ascii.eqb c "]" || Ascii.eqb c "," || Py.isspace c).

(** [[\],]] *)
Definition is_rest_char (c : ascii) : bool :=
  Ascii.eqb c "]" || Ascii.eqb c ",".

(** [[-]?]: the sign, if there is one, and what follows it. *)
Definition opt_minus (s : string) : string * string :=
  match s with
  | String c s' => if Ascii.eqb c "-" then ("-", s') else (EmptyString, s)
  | EmptyString => (EmptyString, s)
  end.

(** The part of the pattern after [\[]: offset, comma, column and closing
    character, with the optional whitespace around them. *)
Definition match_args (s1 : string)
  : option (string * string * string * string) :=
  let s2 := snd (Py.span Py.isspace s1) in
  let '(sign, s3) := opt_minus s2 in
  let '(digits, s4) := Py.span Py.isdecimal s3 in
  if Py.truthy digits then
    match snd (Py.span Py.isspace s4) with
    | String comma s5 =>
        if Ascii.eqb comma "," then
          let s6 := snd (Py.span Py.isspace s5) in
          let '(col, s7) := Py.span is_column_char s6 in
          if Py.truthy col then
            match snd (Py.span Py.isspace s7) with
            | String r s8 =>
                if is_rest_char r
                then Some (sign +:+ digits, col, String r EmptyString, s8)
                else None
            | EmptyString => None
            end
          else None
        else None
    | EmptyString => None
    end
  else None.

(** [WAPITI_MACRO_PATTERN.match(s)]: the groups of the match at the start
    of [s] and the text after the match. *)
Definition match_macro (s : string) : option (groups * string) :=
  match s with
  | String p (String k (String b s1)) =>
      if Ascii.eqb p "%" && is_macro_letter k && Ascii.eqb b "[" then
        match match_args s1 with
        | Some (off, col, r, after) =>
            Some (Groups (String p (String k EmptyString)) off col r, after)
        | None => None
        end
      else None
  | _ => None
  end.

(** The pieces [sub] walks over: a character outside every match, or a
    match. *)
Inductive piece : Type :=
| Lit (c : ascii)
| Match (g : groups).

(** The scan of [WAPITI_MACRO_PATTERN.sub]: leftmost matches, the search
    resuming where a match ends.  [skip] counts the characters of the
    current match that are still to be passed over. *)
Fixpoint scan_from (skip : nat) (s : string) : list piece :=
  match s with
  | EmptyString => []
  | String c s' =>
      match skip with
      | S n => scan_from n s'
      | O =>
          match match_macro s with
          | Some (g, after) =>
              Match g :: scan_from (String.length s' - String.length after) s'
          | None => Lit c :: scan_from 0 s'
          end
      end
  end.

Definition scan (s : string) : list piece := scan_from 0 s.

(** What [sub] puts in the place of a piece: the character itself, or what
    [repl] returns for the match. *)
Definition on_piece (repl : groups → result string) (p : piece)
  : result string :=
  match p with
  | Lit c => OK (String c EmptyString)
  | Match g => repl g
  end.

(** [WAPITI_MACRO_PATTERN.sub(repl, s)] for a [repl] that may raise. *)
Definition sub (repl : groups → result string) (s : string) : result string :=
  let* parts := rmap (on_piece repl) (scan s) in
  OK (Py.join EmptyString parts).

End Re.

(** ** The pattern as a grammar

    What it is for [WAPITI_MACRO_PATTERN] to match at the start of a text,
    read off the pattern piece by piece, without any order of search. *)

Definition all_chars (p : ascii → bool) (s : string) : Prop :=
  Py.forallb_str p s = true.

Inductive pattern_matches : string → Re.groups → string → Prop :=
| pattern_matches_intro (k : ascii) (ws1 sign digits ws2 ws3 col ws4 : string)
    (r : ascii) (after : string) :
    Re.is_macro_letter k = true →
    all_chars Py.isspace ws1 →
    sign = EmptyString ∨ sign = "-" →
    digits ≠ EmptyString → all_chars Py.isdecimal digits →
    all_chars Py.isspace ws2 →
    all_chars Py.isspace ws3 →
    col ≠ EmptyString → all_chars Re.is_column_char col →
    all_chars Py.isspace ws4 →
    Re.is_rest_char r = true →
    pattern_matches
      (String "%" (String k (String "["
         (ws1 +:+ sign +:+ digits +:+ ws2 +:+
          String "," (ws3 +:+ col +:+ ws4 +:+ String r after)))))
      (Re.Groups (String "%" (String k EmptyString)) (sign +:+ digits) col
                 (String r EmptyString))
      after.

(** The text is empty or starts with a character outside the class. *)
Definition head_fails (p : ascii → bool) (s : string) : Prop :=
  match s with
  | EmptyString => True
  | String c _ => p c = false
  end.

(** [a] is what is left of [s] after some prefix. *)
Definition is_suffix (a s : string) : Prop := ∃ m, s = m +:+ a.

(** The only line boundaries of the text are LF characters. *)
Definition only_lf (s : string) : bool :=
  Py.forallb_str (λ c, negb (Py.islinebreak c) || Ascii.eqb c Py.LF) s.

(** ** Template compilation *)

(** [_wapiti_line_is_comment] *)
Definition _wapiti_line_is_comment (line : string) : bool :=
  Py.startswith "#" (Py.strip line).

(** [vocabulary[column]]; the vocabulary of an encoder that was never
    fitted is [None], which cannot be subscripted. *)
Definition getitem (vocabulary : option (gmap string nat)) (key : string)
  : result nat :=
  match vocabulary with
  | Some d =>
      match d !! key with
      | Some i => OK i
      | None => Raise (KeyError key)
      end
  | None => Raise TypeError
  end.

(** The inner function [repl] of [prepare_wapiti_template]. *)
Definition repl (vocabulary : option (gmap string nat)) (m : Re.groups)
  : result string :=
  let* column :=
    (if negb (Py.isdigit (Re.column m)) then
       let* i := getitem vocabulary (Re.column m) in OK (Py.str_of_nat i)
     else OK (Re.column m)) in
  OK (Re.macro m +:+ "[" +:+ Re.offset m +:+ "," +:+ column +:+ Re.rest m).

(** One element of the list comprehension of [prepare_wapiti_template]. *)
Definition prepare_line (vocabulary : option (gmap string nat)) (line : string)
  : result string :=
  if negb (_wapiti_line_is_comment line) then Re.sub (repl vocabulary) line
  else OK line.

Definition prepare_wapiti_template (template : string)
    (vocabulary : option (gmap string nat)) : result string :=
  let* lines := rmap (prepare_line vocabulary) (Py.splitlines template) in
  OK (Py.join (String Py.LF EmptyString) lines).

(** The rewriting of a line said with the grammar alone, without the scan:
    reading from left to right, a character at which the pattern has no
    match is copied as it is, and the text of a match is replaced by what
    [repl] returns for its groups, the reading going on where the match
    ends.  Nothing else is added, dropped or moved. *)
Inductive compiled_line (vocabulary : option (gmap string nat))
  : string → string → Prop :=
| compiled_end : compiled_line vocabulary EmptyString EmptyString
| compiled_char (c : ascii) (s out : string) :
    (∀ g after, ¬ pattern_matches (String c s) g after) →
    compiled_line vocabulary s out →
    compiled_line vocabulary (String c s) (String c out)
| compiled_macro (s : string) (g : Re.groups) (after t out : string) :
    pattern_matches s g after →
    repl vocabulary g = OK t →
    compiled_line vocabulary after out →
    compiled_line vocabulary s (t +:+ out).

(** What a line of the template becomes: a comment stays as it is, another
    line is rewritten macro by macro. *)
Definition line_compiles_to (vocabulary : option (gmap string nat))
    (line line' : string) : Prop :=
  if _wapiti_line_is_comment line then line' = line
  else compiled_line vocabulary line line'.

(** No macro is found on the line, or the line is a comment. *)
Definition nothing_to_compile (line : string) : Prop :=
  _wapiti_line_is_comment line = true ∨ ∀ g, Re.Match g ∉ Re.scan line.

(** ** Feature observations *)

(** A feature value; [VNone] is Python's [None], which [dict.get] returns
    for a missing key. *)
Inductive value : Type :=
| VStr (s : string)
| VInt (z : Z)
| VBool (b : bool)
| VNone.

(** A feature dictionary, in insertion order. *)
Abbreviation dict := (list (string * value)).

Definition dict_keys (d : dict) : list string := d.*1.

(** [d.get(key)] *)
Fixpoint dict_get (d : dict) (key : string) : value :=
  match d with
  | [] => VNone
  | (k, v) :: d' => if String.eqb k key then v else dict_get d' key
  end.

(** [d[key]] *)
Fixpoint dict_getitem (d : dict) (key : string) : result value :=
  match d with
  | [] => Raise (KeyError key)
  | (k, v) :: d' => if String.eqb k key then OK v else dict_getitem d' key
  end.

(** ** What the module imports from [.utils] and from the runtime *)

(** Modelled from the spec: [get_combined_keys] of [webstruct/utils.py],
    which is not among the sources; it is "the full set of feature names
    present across all observations". *)
Definition get_combined_keys (feature_dicts : list dict) : gset string :=
  ⋃ (map (λ d : dict, list_to_set (dict_keys d)) feature_dicts).

(** [tostr] of [webstruct/utils.py] is not among the sources: it is a
    parameter, the stringification of a feature value. *)
Class Utils : Type := {
  tostr : value → string
}.

(** The order in which Python enumerates a set of strings is not specified:
    any enumeration without repetition. *)
Class SetOrder : Type := {
  tuple_of_set : gset string → list string;
  tuple_of_set_perm : ∀ s, tuple_of_set s ≡ₚ elements s
}.

(** ** WapitiFeatureEncoder *)

Module WapitiFeatureEncoder.

Record t : Type := mk {
  move_to_front : list string;
  feature_names_ : option (list string);
  vocabulary_ : option (gmap string nat)
}.

Definition __init__ (move_to_front : list string) : t :=
  mk move_to_front None None.

(** [dict((f, i) for i, f in enumerate(names))]: a later pair replaces an
    earlier one with the same key. *)
Definition dict_of_enumerate (names : list string) : gmap string nat :=
  foldl (λ (m : gmap string nat) (p : nat * string), <[p.2 := p.1]> m)
        ∅ (imap pair names).

Section Fit.
Context `{SetOrder}.

Definition partial_fit (self : t) (X : list (list dict)) : t :=
  let keys : gset string :=
    list_to_set (default [] (feature_names_ self)) in
  let mtf : gset string := list_to_set (move_to_front self) in
  let keys :=
    foldl (λ keys feature_dicts,
             (keys ∪ get_combined_keys feature_dicts) ∖ mtf) keys X in
  let names := move_to_front self ++ tuple_of_set keys in
  mk (move_to_front self) (Some names) (Some (dict_of_enumerate names)).

Definition fit (self : t) (X : list (list dict)) : t := partial_fit self X.
End Fit.

Section Transform.
Context `{Utils}.

(** The row of one observation. *)
Definition row (names : list string) (dct : dict) : string :=
  Py.join " " (map (λ key, tostr (dict_get dct key)) names).

(** With [feature_names_] still [None] the generator cannot iterate it;
    that is reached only when there is an observation. *)
Definition transform_single (self : t) (feature_dicts : list dict)
  : result (list string) :=
  rmap (λ dct, match feature_names_ self with
               | Some names => OK (row names dct)
               | None => Raise TypeError
               end) feature_dicts.

Definition transform (self : t) (X : list (list dict))
  : result (list (list string)) :=
  rmap (transform_single self) X.
End Transform.

Definition prepare_template (self : t) (template : string) : result string :=
  prepare_wapiti_template template (vocabulary_ self).

Definition unigram_features_template (self : t) (scope : string)
  : result string :=
  match feature_names_ self with
  | None => Raise TypeError
  | Some names =>
      let lines :=
        (String Py.LF "# Unigrams for all custom features") ::
        imap (λ col name,
                scope +:+ "feat:" +:+ name +:+ "=%x[0,"
                +:+ Py.str_of_nat col +:+ "]") names in
      OK (Py.join (String Py.LF EmptyString) lines +:+ String Py.LF EmptyString)
  end.

Definition reset (self : t) : t :=
  mk (move_to_front self) None (vocabulary_ self).

End WapitiFeatureEncoder.

(** ** WapitiCRF *)

(** What a call leaves behind outside the process: temporary files created,
    written and unlinked, and command lines run, in order of time. *)
Inductive event : Type :=
| Create (name : string)
| Write (name data : string)
| Unlink (name : string)
| Run (argv : list string).

Abbreviation world := (list event).

(** The operating system and [run_command] of [webstruct/utils.py] (not
    among the sources): the name [tempfile] picks for a new file, and
    whether the command that was run fails. *)
Class External : Type := {
  temp_name : option string → string → string → world → string;
  run_command : list string → bool → world → result unit
}.

(** A statement that may raise and acts on a state [S]. *)
Definition M (S A : Type) : Type := S → result A * S.

Definition ret {S A} (a : A) : M S A := λ s, (OK a, s).
Definition bind {S A B} (m : M S A) (k : A → M S B) : M S B :=
  λ s, match m s with
       | (OK a, s') => k a s'
       | (Raise e, s') => (Raise e, s')
       end.
Definition lift {S A} (r : result A) : M S A := λ s, (r, s).
Definition emit {A} (ev : event) (a : A) : M world A := λ w, (OK a, w ++ [ev]).

(** [try: body finally: cleanup] *)
Definition finally {S A} (body : M S A) (cleanup : M S unit) : M S A :=
  λ s, match body s with
       | (r, s') =>
           match cleanup s' with
           | (OK _, s'') => (r, s'')
           | (Raise e, s'') => (Raise e, s'')
           end
       end.

Notation "'do' x '←' m ';' k" := (bind m (fun x => k))
  (at level 10, x pattern, m at level 100, k at level 200).

Fixpoint for_each {S A} (f : A → M S unit) (xs : list A) : M S unit :=
  match xs with
  | [] => ret tt
  | x :: xs' => do _ ← f x; for_each f xs'
  end.

Module WapitiCRF.

Definition WAPITI_CMD : string := "wapiti".

Record t : Type := mk {
  model_filname_ : string;
  wapiti_args_ : list string;
  feature_template_ : string;
  unigrams_scope_ : option string;
  tempdir_ : option string;
  unlink_temp_ : bool;
  verbose_ : bool;
  feature_encoder_ : WapitiFeatureEncoder.t
}.

(** [wapiti_args] is taken as the list of arguments ([shlex.split] is not
    modelled). *)
Definition __init__ (model_filename : string) (wapiti_args : list string)
    (feature_template : string) (unigrams_scope : option string)
    (tempdir : option string) (unlink_temp verbose : bool) : t :=
  mk model_filename wapiti_args feature_template unigrams_scope tempdir
     unlink_temp verbose (WapitiFeatureEncoder.__init__ ["token"]).

Definition with_encoder (self : t) (enc : WapitiFeatureEncoder.t) : t :=
  mk (model_filname_ self) (wapiti_args_ self) (feature_template_ self)
     (unigrams_scope_ self) (tempdir_ self) (unlink_temp_ self)
     (verbose_ self) enc.

(** [["%s %s" % (line, tag) for line, tag in zip(wapiti_lines, tags)]] *)
Definition train_lines (wapiti_lines tags : list string) : list string :=
  map (λ p : string * string, p.1 +:+ " " +:+ p.2) (zip wapiti_lines tags).

Definition _to_train_sequence (wapiti_lines tags : list string) : string :=
  Py.join (String Py.LF EmptyString) (train_lines wapiti_lines tags).

(** Truth value of an optional list and of an optional string, as
    [any([X_dev, y_dev, out_dev])] takes them. *)
Definition truthy_list {A} (x : option (list A)) : bool :=
  match x with Some (_ :: _) => true | _ => false end.
Definition truthy_str (x : option string) : bool :=
  match x with Some s => Py.truthy s | None => false end.

Section Methods.
Context `{Utils} `{SetOrder} `{External}.

(** [tempfile.NamedTemporaryFile(..., delete=False)] and
    [tempfile.mkstemp]: a new file comes to exist. *)
Definition new_temp (dir : option string) (prefix suffix : string)
  : M world string :=
  λ w, let name := temp_name dir prefix suffix w in
       (OK name, w ++ [Create name]).

Definition run_wapiti (self : t) (args : list string) : M world unit :=
  λ w, let argv := WAPITI_CMD :: args in
       (run_command argv (verbose_ self) w, w ++ [Run argv]).

(** [y] is [None] when [fit] passes on a [y_dev] that was not given;
    [zip(X, None)] raises [TypeError]. *)
Definition _create_wapiti_data_file (self : t) (X : list (list dict))
    (y : option (list (list string))) : M world string :=
  do X ← lift (WapitiFeatureEncoder.transform (feature_encoder_ self) X);
  do wapiti_sequences ←
    lift (match y with
          | Some y => OK (map (λ p : list string * list string,
                                 _to_train_sequence p.1 p.2) (zip X y))
          | None => Raise TypeError
          end);
  do name ← new_temp (tempdir_ self) "wapiti-data-" ".txt";
  do _ ← for_each (λ seq,
             do _ ← emit (Write name seq) tt;
             emit (Write name (String Py.LF (String Py.LF EmptyString))) tt)
           wapiti_sequences;
  ret name.

Definition _create_wapiti_feature_template_file (self : t) : M world string :=
  do name ← new_temp (tempdir_ self) "feature-template-" ".txt";
  do template ← lift (WapitiFeatureEncoder.prepare_template
                        (feature_encoder_ self) (feature_template_ self));
  do _ ← emit (Write name template) tt;
  do _ ← match unigrams_scope_ self with
         | Some scope =>
             do unigram_template ←
               lift (WapitiFeatureEncoder.unigram_features_template
                       (feature_encoder_ self) scope);
             do _ ← emit (Write name (String Py.LF EmptyString)) tt;
             emit (Write name unigram_template) tt
         | None => ret tt
         end;
  ret name.

(** The body of the [try] statement of [fit]; its state is the world
    and the local list [to_unlink]. *)
Definition on_world {A} (m : M world A) : M (world * list string) A :=
  λ s, match m s.1 with (r, w') => (r, (w', s.2)) end.
Definition to_unlink_append (name : string) : M (world * list string) unit :=
  λ s, (OK tt, (s.1, s.2 ++ [name])).

Definition fit_body (self : t) (X : list (list dict)) (y : list (list string))
    (X_dev : option (list (list dict))) (y_dev : option (list (list string)))
    (out_dev : option string) : M (world * list string) unit :=
  do train_fn ← on_world (_create_wapiti_data_file self X (Some y));
  do _ ← to_unlink_append train_fn;
  do (dev_fn, out_dev) ←
    match X_dev with
    | Some X_dev =>
        do dev_fn ← on_world (_create_wapiti_data_file self X_dev y_dev);
        match out_dev with
        | None =>
            do out_dev ← on_world (new_temp (tempdir_ self)
                                     "wapiti-dev-data" ".txt");
            do _ ← to_unlink_append out_dev;
            ret (Some dev_fn, Some out_dev)
        | Some _ => ret (Some dev_fn, out_dev)
        end
    | None => ret (None, out_dev)
    end;
  do template_fn ← on_world (_create_wapiti_feature_template_file self);
  do _ ← to_unlink_append template_fn;
  let args := ["train"; "--pattern"; template_fn] ++ wapiti_args_ self in
  let args := if truthy_str dev_fn
              then args ++ ["--devel"; default "" dev_fn] else args in
  let args := args ++ [train_fn; model_filname_ self] in
  do _ ← on_world (run_wapiti self args);
  if truthy_str dev_fn then
    on_world (run_wapiti self
      ["label"; "-m"; model_filname_ self; "--check";
       default "" dev_fn; default "" out_dev])
  else ret tt.

(** The [finally] clause of [fit]. *)
Definition fit_cleanup (self : t) : M (world * list string) unit :=
  λ s, if unlink_temp_ self
       then (OK tt, (s.1 ++ map Unlink s.2, s.2))
       else (OK tt, s).

(** [fit]: the exception or [None], the estimator afterwards, and the
    world afterwards. *)
Definition fit (self : t) (X : list (list dict)) (y : list (list string))
    (X_dev : option (list (list dict))) (y_dev : option (list (list string)))
    (out_dev : option string) (w : world) : result unit * t * world :=
  if (truthy_list X_dev || truthy_list y_dev || truthy_str out_dev)
     && (bool_decide (X_dev = None) || bool_decide (y_dev = None))
  then (Raise (ValueError
                 "Pass both X_dev and y_dev to use the development data"),
        self, w)
  else
    let enc := WapitiFeatureEncoder.reset (feature_encoder_ self) in
    let enc := WapitiFeatureEncoder.fit enc X in
    let self := with_encoder self enc in
    match finally (fit_body self X y X_dev y_dev out_dev)
                  (fit_cleanup self) (w, []) with
    | (r, (w', _)) => (r, self, w')
    end.
End Methods.

End WapitiCRF.

(** ** WapitiChunker *)

(** The objects a chunker is built from, through the methods it calls:
    [feature_extractor.fit_transform] (whose second component is dropped),
    [feature_encoder.transform] on the feature dictionaries (its lines, or
    the exception of the call or of joining something that is not a list of
    strings), [model.label_sequence], and [label_encoder.group]. *)
Class Collaborators (Doc : Type) : Type := {
  fit_transform : Doc → option string → list dict;
  encoder_transform : list dict → result (list string);
  label_sequence : string → string;
  group : list (value * string) → list (list value * string)
}.

Module WapitiChunker.

(** [" ".join(ner_tokens)]: every token has to be a string. *)
Definition join_tokens (ner_tokens : list value) : result string :=
  let* strs := rmap (λ v, match v with
                          | VStr s => OK s
                          | _ => Raise TypeError
                          end) ner_tokens in
  OK (Py.join " " strs).

Section Methods.
Context {Doc : Type} `{Collaborators Doc}.

Definition _prepare_features (X : Doc) (encoding : option string)
  : result (list dict * list string) :=
  let feature_dicts := fit_transform X encoding in
  let* feature_lines := encoder_transform feature_dicts in
  OK (feature_dicts, feature_lines).

Definition _get_labels (feature_lines : list string) : result (list string) :=
  let lines_joined := Py.join (String Py.LF EmptyString) feature_lines in
  let out_lines := Py.split Py.LF (label_sequence lines_joined) in
  rmap (λ line, Py.last_item (Py.rsplit line))
       (filter (λ line, Py.truthy (Py.strip line) = true) out_lines).

Definition transform (X : Doc) (encoding : option string)
  : result (list (string * string)) :=
  let* (feature_dicts, feature_lines) := _prepare_features X encoding in
  let* labels := _get_labels feature_lines in
  let* tokens := rmap (λ f, dict_getitem f "token") feature_dicts in
  if negb (length tokens =? length labels)%nat then Raise AssertionError
  else
    rmap (λ p : list value * string,
            let* text := join_tokens p.1 in OK (text, p.2))
         (group (zip tokens labels)).
End Methods.

End WapitiChunker.

(** ** The feature names a template refers to

    The columns that [repl] looks up: those of the matches on lines that are
    not comments, when they are not digit strings, in reading order. *)

Definition looked_up (p : Re.piece) : option string :=
  match p with
  | Re.Match g => if Py.isdigit (Re.column g) then None else Some (Re.column g)
  | Re.Lit _ => None
  end.

Definition line_names (line : string) : list string :=
  if _wapiti_line_is_comment line then []
  else omap looked_up (Re.scan line).

Definition template_names (template : string) : list string :=
  concat (map line_names (Py.splitlines template)).

(** The first of the names that is not a key of the vocabulary. *)
Definition first_unknown (vocabulary : gmap string nat) (names : list string)
  : option string :=
  head (filter (λ k, vocabulary !! k = None) names).

(** ** Notions used in the further properties *)

(** A text without line boundaries. *)
Definition no_linebreak (s : string) : Prop :=
  Py.forallb_str (λ c, negb (Py.islinebreak c)) s = true.

(** What is written after the compiled template: nothing without a scope,
    else a line boundary and the unigram template. *)
Definition unigram_writes (self : WapitiCRF.t) (name : string) : list event :=
  match WapitiCRF.unigrams_scope_ self with
  | Some scope =>
      match WapitiFeatureEncoder.unigram_features_template
              (WapitiCRF.feature_encoder_ self) scope with
      | OK unigram_template =>
          [Write name (String Py.LF EmptyString); Write name unigram_template]
      | Raise _ => []
      end
  | None => []
  end.

(** What a label has to be for this: not empty and without whitespace. *)
Definition is_label (label : string) : Prop :=
  label ≠ EmptyString ∧ all_chars (λ c, negb (Py.isspace c)) label.

(** ** Instances to run the model on *)

#[local] Instance elements_order : SetOrder :=
  {| tuple_of_set := elements; tuple_of_set_perm := λ s, reflexivity _ |}.

(** A [tostr] in the manner of [str]: strings as they are, [None] as
    ["None"]. *)
#[local] Instance str_utils : Utils :=
  {| tostr := λ v, match v with
                   | VStr s => s
                   | VInt z => if (z <? 0)%Z
                               then "-" +:+ Py.str_of_nat (Z.abs_nat z)
                               else Py.str_of_nat (Z.abs_nat z)
                   | VBool b => if b then "1" else "0"
                   | VNone => "None"
                   end |}.

(** Temporary files numbered by the length of the trace, a trainer that
    always succeeds. *)
#[local] Instance quiet_external : External :=
  {| temp_name := λ dir prefix suffix w,
       default "/tmp" dir +:+ "/" +:+ prefix +:+ Py.str_of_nat (length w) +:+ suffix;
     run_command := λ _ _ _, OK tt |}.

(** ** Inputs for the examples *)

Definition nl : string := String Py.LF EmptyString.
Definition dquote : string := String "034" EmptyString.

(** The vocabulary of the docstrings: [{'token': 0, 'tag': 1}]. *)
Definition vocab_token_tag : gmap string nat := <["tag" := 1]> (<["token" := 0]> ∅).

(** A template with a macro line and a comment line that names a feature
    the vocabulary does not have. *)
Definition commented_line : string := "# U:%x[0, nope]".
Definition template_with_comment : string :=
  "U:%x[-1, tag]" +:+ nl +:+ commented_line.

(** A template whose second line names an unknown feature. *)
Definition unknown_line : string := "U:%x[ 0, pos ]/%x[1,0]".
Definition template_with_unknown : string :=
  "U:%x[0,token]" +:+ nl +:+ unknown_line.

(** A template with an empty line in the middle. *)
Definition template_three_lines : string :=
  "U:%x[0, tag]" +:+ nl +:+ nl +:+ "B".

(** Two observations, the second with its keys in another order and one
    feature more. *)
Definition demo_sequence : list dict :=
  [ [("token", VStr "the"); ("tag", VStr "DT")];
    [("tag", VStr "NN"); ("token", VStr "dog"); ("x", VInt 3)] ].

Definition demo_encoder : WapitiFeatureEncoder.t :=
  WapitiFeatureEncoder.fit
    (WapitiFeatureEncoder.__init__ ["token"; "tag"]) [demo_sequence].

Definition demo_crf : WapitiCRF.t :=
  WapitiCRF.__init__ "model.bin" ["-a"; "rprop"] "*:Pos-1 L=%x[-1, tag]"
    (Some "u") None true false.


(** Collaborators of a chunker whose tagger answers with one line for two
    rows. *)
Definition dropping_tagger : Collaborators string :=
  {| fit_transform := λ _ _, [ [("token", VStr "the")]; [("token", VStr "dog")] ];
     encoder_transform := λ ds, OK (map (λ _, "row") ds);
     label_sequence := λ _, "row  O " +:+ nl +:+ "   " +:+ nl;
     group := λ ps, map (λ p, ([p.1], p.2)) ps |}.

(** A vocabulary that agrees with [vocab_token_tag] on [tag] only. *)
Definition vocab_other : gmap string nat := <["tag" := 1]> (<["pos" := 7]> ∅).

(** A batch with one observation that has the feature [y] only. *)
Definition other_batch : list (list dict) := [[ [("y", VInt 1)] ]].

(** An estimator whose template names a feature that the observations do
    not have. *)
Definition crf_unknown_feature : WapitiCRF.t :=
  WapitiCRF.__init__ "model.bin" [] "U:%x[0,pos]" None None true false.

(** Collaborators of a chunker whose tagger answers each row with the row
    and a label, and ends its output with a line boundary. *)
Definition labelling_tagger : Collaborators string :=
  {| fit_transform := λ _ _, [ [("token", VStr "the")]; [("token", VStr "dog")] ];
     encoder_transform := λ ds, OK ["the DT"; "dog NN"];
     label_sequence := λ _,
       "the DT O" +:+ nl +:+ "dog NN B-X" +:+ nl;
     group := λ ps, map (λ p, ([p.1], p.2)) ps |}.

(** * Properties *)

(** ** List comprehensions that may raise *)

Section RmapFacts.
Context {A B : Type} (f : A → result B).

Lemma rmap_OK (xs : list A) (ys : list B) :
  rmap f xs = OK ys ↔ Forall2 (λ x y, f x = OK y) xs ys.
Proof.
  revert ys. induction xs as [|x xs IH]; intros ys; simpl.
  - split.
    + intros [= <-]. constructor.
    + intros Hf. inversion Hf. reflexivity.
  - destruct (f x) as [y|e] eqn:Hx; simpl.
    + destruct (rmap f xs) as [ys'|e] eqn:Hxs; simpl.
      * split.
        -- intros [= <-]. constructor; [done | by apply IH].
        -- intros Hf. inversion Hf as [|? y' ? ys'' Hy Hys]; subst.
           apply IH in Hys. congruence.
      * split; [done |].
        intros Hf. inversion Hf as [|? y' ? ys'' Hy Hys]; subst.
        apply IH in Hys. congruence.
    + split; [done |].
      intros Hf. inversion Hf; congruence.
Qed.

Lemma rmap_length (xs : list A) (ys : list B) :
  rmap f xs = OK ys → length ys = length xs.
Proof.
  intros Hr. apply rmap_OK in Hr. symmetry. by eapply Forall2_length.
Qed.

Lemma rmap_lookup (xs : list A) (ys : list B) (i : nat) (x : A) :
  rmap f xs = OK ys → xs !! i = Some x → ∃ y, ys !! i = Some y ∧ f x = OK y.
Proof.
  intros Hr Hi. apply rmap_OK in Hr.
  destruct (Forall2_lookup_l _ _ _ _ _ Hr Hi) as (y & Hy & Hxy). eauto.
Qed.

(** An exception of the comprehension is the exception of its first
    failing element. *)
Lemma rmap_Raise (xs : list A) (e : exn) :
  rmap f xs = Raise e →
  ∃ i x, xs !! i = Some x ∧ f x = Raise e
         ∧ ∀ j x', j < i → xs !! j = Some x' → ∃ y, f x' = OK y.
Proof.
  induction xs as [|x xs IH]; simpl; [done |].
  destruct (f x) as [y|e'] eqn:Hx; simpl.
  - destruct (rmap f xs) as [ys|e'] eqn:Hxs; simpl; [done |].
    intros [= ->]. destruct (IH eq_refl) as (i & x' & Hi & Hf & Hbefore).
    exists (S i), x'. split_and!; [done | done |].
    intros [|j] x'' Hlt Hj; simplify_eq/=; [eauto |].
    apply (Hbefore j); [lia | done].
  - intros [= ->]. exists 0, x. split_and!; [done | done |]. lia.
Qed.

Lemma rmap_fails (xs : list A) (x : A) (e : exn) :
  x ∈ xs → f x = Raise e → ∃ e', rmap f xs = Raise e'.
Proof.
  intros Hin Hx. destruct (rmap f xs) as [ys|e'] eqn:Hr; [| eauto].
  apply list_elem_of_lookup in Hin as [i Hi].
  destruct (rmap_lookup _ _ _ _ Hr Hi) as (y & _ & Hy). congruence.
Qed.

Lemma rmap_total (g : A → B) (xs : list A) :
  (∀ x, x ∈ xs → f x = OK (g x)) → rmap f xs = OK (map g xs).
Proof.
  induction xs as [|x xs IH]; intros Hall; simpl; [done |].
  rewrite Hall by left. simpl. rewrite IH; [done |].
  intros x' Hx'. apply Hall. by right.
Qed.
End RmapFacts.

(** ** Strings *)

Lemma append_nil_l (s : string) : EmptyString +:+ s = s.
Proof. reflexivity. Qed.

Lemma append_cons (c : ascii) (a b : string) :
  String c a +:+ b = String c (a +:+ b).
Proof. reflexivity. Qed.

Lemma append_nil_r (s : string) : s +:+ EmptyString = s.
Proof. induction s; rewrite ?append_cons; [done | congruence]. Qed.

Lemma append_assoc (a b c : string) : (a +:+ b) +:+ c = a +:+ (b +:+ c).
Proof. induction a; rewrite ?append_cons, ?append_nil_l; congruence. Qed.

Lemma append_length (a b : string) :
  String.length (a +:+ b) = String.length a + String.length b.
Proof. induction a; rewrite ?append_cons, ?append_nil_l; simpl; congruence. Qed.

Lemma span_app (p : ascii → bool) (s : string) :
  (Py.span p s).1 +:+ (Py.span p s).2 = s.
Proof.
  induction s as [|c s IH]; simpl; [done |].
  destruct (p c); [| done].
  destruct (Py.span p s) as [a b]. simpl in *. rewrite append_cons. congruence.
Qed.

Lemma span_prefix_all (p : ascii → bool) (s : string) :
  Py.forallb_str p (Py.span p s).1 = true.
Proof.
  induction s as [|c s IH]; simpl; [done |].
  destruct (p c) eqn:Hc; [| done].
  destruct (Py.span p s) as [a b]. simpl in *. by rewrite Hc.
Qed.

Lemma join_cons_char (sep : string) (c : ascii) (l : string) (ls : list string) :
  Py.join sep (String c l :: ls) = String c (Py.join sep (l :: ls)).
Proof. destruct ls; reflexivity. Qed.

Lemma join_cons2 (sep x y : string) (ys : list string) :
  Py.join sep (x :: y :: ys) = x +:+ sep +:+ Py.join sep (y :: ys).
Proof. reflexivity. Qed.

Lemma join_empty_cons (x : string) (xs : list string) :
  Py.join EmptyString (x :: xs) = x +:+ Py.join EmptyString xs.
Proof. destruct xs; simpl; [by rewrite append_nil_r | done]. Qed.

Lemma splitlines_nil (s : string) : Py.splitlines s = [] → s = EmptyString.
Proof.
  destruct s as [|c s]; simpl; [done |].
  destruct (Py.islinebreak c).
  - destruct s as [|c' s']; [done |].
    by destruct (Ascii.eqb c Py.CR && Ascii.eqb c' Py.LF).
  - by destruct (Py.splitlines s).
Qed.

(** No character of a line is foreign to the text that was split. *)
Lemma splitlines_contains (c : ascii) (s : string) :
  Py.contains c s = false →
  Forall (λ line, Py.contains c line = false) (Py.splitlines s).
Proof.
  induction s as [s IH] using (induction_ltof1 _ String.length).
  unfold ltof in IH. destruct s as [|c0 s]; simpl; [constructor |].
  intros [H0 Hs]%orb_false_elim.
  destruct (Py.islinebreak c0).
  - destruct s as [|c1 s1]; [by repeat constructor |].
    destruct (Ascii.eqb c0 Py.CR && Ascii.eqb c1 Py.LF).
    + constructor; [done |]. apply IH; [simpl; lia |].
      simpl in Hs. by apply orb_false_elim in Hs as [_ ?].
    + constructor; [done |]. apply IH; [simpl; lia | done].
  - specialize (IH s ltac:(simpl; lia) Hs).
    destruct (Py.splitlines s) as [|l ls]; [repeat constructor; simpl; by rewrite H0 |].
    inversion IH; subst. constructor; [simpl; by rewrite H0 | done].
Qed.

(** A text whose only line boundaries are LF and which does not end in one
    is put together again by joining its lines with LF. *)
Lemma join_splitlines (s : string) :
  only_lf s = true → Py.endswith Py.LF s = false →
  Py.join (String Py.LF EmptyString) (Py.splitlines s) = s.
Proof.
  induction s as [|c s IH]; [done |].
  intros [Hc Hs]%andb_prop Hend. fold (only_lf s) in Hs.
  assert (Hend' : s ≠ EmptyString → Py.endswith Py.LF s = false)
    by (intros Hne; destruct s; [done | exact Hend]).
  cbn [Py.splitlines]. destruct (Py.islinebreak c) eqn:Hbrk.
  - simpl in Hc. apply Ascii.eqb_eq in Hc as ->.
    destruct s as [|c' s']; [done |].
    replace (Ascii.eqb Py.LF Py.CR) with false by reflexivity. cbn [andb].
    specialize (IH Hs (Hend' ltac:(done))).
    destruct (Py.splitlines (String c' s')) as [|l ls] eqn:Hsp.
    { by apply splitlines_nil in Hsp. }
    rewrite join_cons2, IH. reflexivity.
  - destruct (Py.splitlines s) as [|l ls] eqn:Hsp.
    + apply splitlines_nil in Hsp as ->. reflexivity.
    + rewrite join_cons_char. f_equal. apply IH; [done |].
      apply Hend'. intros ->. done.
Qed.

Lemma startswith_rstrip (c : ascii) (s : string) :
  Py.isspace c = false → Py.startswith c (Py.rstrip s) = Py.startswith c s.
Proof.
  intros Hc. destruct s as [|c' s]; [done |]. simpl.
  destruct (Py.rstrip s); [| done].
  destruct (Py.isspace c') eqn:Hc'; [| done]. simpl.
  symmetry. apply Ascii.eqb_neq. intros ->. congruence.
Qed.

(** [line.strip().startswith('#')] looks at the first character that is
    not whitespace. *)
Lemma line_is_comment_lstrip (line : string) :
  _wapiti_line_is_comment line = Py.startswith "#" (Py.lstrip line).
Proof. unfold _wapiti_line_is_comment, Py.strip. by apply startswith_rstrip. Qed.

(** ** The scan of [sub] *)

Lemma is_suffix_refl (s : string) : is_suffix s s.
Proof. by exists EmptyString. Qed.

Lemma is_suffix_trans (a b c : string) :
  is_suffix a b → is_suffix b c → is_suffix a c.
Proof. intros [m ->] [n ->]. exists (n +:+ m). by rewrite append_assoc. Qed.

Lemma is_suffix_tail (c : ascii) (s : string) : is_suffix s (String c s).
Proof. by exists (String c EmptyString). Qed.

Lemma is_suffix_span (p : ascii → bool) (s : string) :
  is_suffix (Py.span p s).2 s.
Proof. exists (Py.span p s).1. by rewrite span_app. Qed.

Lemma is_suffix_opt_minus (s : string) : is_suffix (Re.opt_minus s).2 s.
Proof.
  destruct s as [|c s]; simpl; [apply is_suffix_refl |].
  destruct (Ascii.eqb c "-"); [apply is_suffix_tail | apply is_suffix_refl].
Qed.

Lemma match_args_suffix (s1 off col r after : string) :
  Re.match_args s1 = Some (off, col, r, after) → is_suffix after s1.
Proof.
  unfold Re.match_args.
  pose proof (is_suffix_span Py.isspace s1) as H2.
  set (s2 := (Py.span Py.isspace s1).2) in *.
  pose proof (is_suffix_opt_minus s2) as H3.
  destruct (Re.opt_minus s2) as [sign s3]. simpl in H3.
  pose proof (is_suffix_span Py.isdecimal s3) as H4.
  destruct (Py.span Py.isdecimal s3) as [digits s4]. simpl in H4.
  destruct (Py.truthy digits); [| done].
  pose proof (is_suffix_span Py.isspace s4) as H5.
  destruct (Py.span Py.isspace s4).2 as [|comma s5]; [done |].
  destruct (Ascii.eqb comma ","); [| done].
  pose proof (is_suffix_span Py.isspace s5) as H6.
  set (s6 := (Py.span Py.isspace s5).2) in *.
  pose proof (is_suffix_span Re.is_column_char s6) as H7.
  destruct (Py.span Re.is_column_char s6) as [col' s7]. simpl in H7.
  destruct (Py.truthy col'); [| done].
  pose proof (is_suffix_span Py.isspace s7) as H8.
  destruct (Py.span Py.isspace s7).2 as [|r' s8]; [done |].
  destruct (Re.is_rest_char r'); [| done].
  intros [= <- <- <- <-].
  eapply is_suffix_trans; [apply is_suffix_tail |].
  eapply is_suffix_trans; [exact H8 |].
  eapply is_suffix_trans; [exact H7 |].
  eapply is_suffix_trans; [exact H6 |].
  eapply is_suffix_trans; [apply is_suffix_tail |].
  eapply is_suffix_trans; [exact H5 |].
  eapply is_suffix_trans; [exact H4 |].
  eapply is_suffix_trans; [exact H3 |]. exact H2.
Qed.

(** A match starts with the percent sign and is not empty. *)
Lemma match_macro_inv (s : string) (g : Re.groups) (after : string) :
  Re.match_macro s = Some (g, after) →
  ∃ m, s = String "%" (m +:+ after).
Proof.
  destruct s as [|p [|k [|b s1]]]; simpl; try done.
  destruct (Ascii.eqb p "%") eqn:Hp; [| done].
  apply Ascii.eqb_eq in Hp as ->. simpl.
  destruct (Re.is_macro_letter k && Ascii.eqb b "["); [| done].
  destruct (Re.match_args s1) as [[[[off col] r] after']|] eqn:Hargs; [| done].
  intros [= <- <-]. apply match_args_suffix in Hargs as [m ->].
  by exists (String k (String b m)).
Qed.

Lemma scan_from_skip (m after : string) :
  Re.scan_from (String.length m) (m +:+ after) = Re.scan_from 0 after.
Proof. induction m as [|c m IH]; [done |]. rewrite append_cons. exact IH. Qed.

(** After a match the scan resumes where the match ends. *)
Lemma scan_match (s : string) (g : Re.groups) (after : string) :
  Re.match_macro s = Some (g, after) →
  Re.scan s = Re.Match g :: Re.scan after.
Proof.
  intros Hm. destruct (match_macro_inv _ _ _ Hm) as [m ->].
  unfold Re.scan. cbn [Re.scan_from]. rewrite Hm. f_equal.
  rewrite append_length.
  replace (String.length m + String.length after - String.length after)
    with (String.length m) by lia.
  apply scan_from_skip.
Qed.

Lemma scan_nomatch (c : ascii) (s : string) :
  Re.match_macro (String c s) = None →
  Re.scan (String c s) = Re.Lit c :: Re.scan s.
Proof. intros Hm. unfold Re.scan. cbn [Re.scan_from]. by rewrite Hm. Qed.

Lemma sub_unfold (r : Re.groups → result string) (s : string) :
  Re.sub r s =
  let* parts := rmap (Re.on_piece r) (Re.scan s) in OK (Py.join EmptyString parts).
Proof. reflexivity. Qed.

(** A line in which the scan finds no match is returned as it is. *)
Lemma sub_no_match (r : Re.groups → result string) (s : string) :
  (∀ g, Re.Match g ∉ Re.scan s) → Re.sub r s = OK s.
Proof.
  rewrite sub_unfold.
  induction s as [|c s IH]; intros Hno; [done |].
  destruct (Re.match_macro (String c s)) as [[g after]|] eqn:Hm.
  { exfalso. apply (Hno g). rewrite (scan_match _ _ _ Hm). by left. }
  rewrite (scan_nomatch _ _ Hm) in *. cbn [rmap Re.on_piece rbind].
  destruct (rmap (Re.on_piece r) (Re.scan s)) as [parts|e] eqn:Hparts.
  - cbn [rbind] in *. rewrite join_empty_cons.
    assert (OK (Py.join EmptyString parts) = OK s) as [= ->]; [| done].
    apply IH. intros g Hg. apply (Hno g). by right.
  - exfalso. cbn [rbind] in IH.
    assert (@Raise string e = OK s); [| done].
    apply IH. intros g Hg. apply (Hno g). by right.
Qed.

Lemma scan_no_percent (s : string) :
  Py.contains "%" s = false → ∀ g, Re.Match g ∉ Re.scan s.
Proof.
  induction s as [|c s IH]; intros Hno g; [by intros ?%elem_of_nil |].
  simpl in Hno. apply orb_false_elim in Hno as [Hc Hs].
  destruct (Re.match_macro (String c s)) as [[g' after]|] eqn:Hm.
  { apply match_macro_inv in Hm as [m [= -> _]]. done. }
  rewrite (scan_nomatch _ _ Hm). intros [?|?]%elem_of_cons; [done |].
  by eapply IH.
Qed.

(** An exception of [sub] is the exception of [repl] at a match. *)
Lemma sub_raise (r : Re.groups → result string) (s : string) (e : exn) :
  Re.sub r s = Raise e → ∃ g, Re.Match g ∈ Re.scan s ∧ r g = Raise e.
Proof.
  rewrite sub_unfold.
  destruct (rmap (Re.on_piece r) (Re.scan s)) as [parts|e'] eqn:Hparts; [done |].
  intros [= ->]. apply rmap_Raise in Hparts as (i & p & Hi & Hp & _).
  destruct p as [c|g]; [done |]. exists g. split; [| done].
  apply list_elem_of_lookup. eauto.
Qed.

Lemma sub_fails (r : Re.groups → result string) (s : string) (g : Re.groups)
    (e : exn) :
  Re.Match g ∈ Re.scan s → r g = Raise e → ∃ e', Re.sub r s = Raise e'.
Proof.
  intros Hin Hg. rewrite sub_unfold.
  destruct (rmap_fails (Re.on_piece r) _ _ e Hin Hg) as [e' ->]. by exists e'.
Qed.

(** ** The scan agrees with the pattern *)

Lemma span_eq (p : ascii → bool) (a b : string) :
  all_chars p a → head_fails p b → Py.span p (a +:+ b) = (a, b).
Proof.
  intros Ha Hb. induction a as [|c a IH].
  - rewrite append_nil_l. destruct b as [|c b]; [done |]. simpl in *. by rewrite Hb.
  - unfold all_chars in Ha. simpl in Ha. apply andb_prop in Ha as [Hc Ha].
    rewrite append_cons. simpl. rewrite Hc, (IH Ha). done.
Qed.

Lemma head_fails_app (p q : ascii → bool) (a b : string) :
  (∀ c, q c = true → p c = false) → all_chars q a →
  a ≠ EmptyString ∨ head_fails p b → head_fails p (a +:+ b).
Proof.
  intros Hpq Ha Hb. destruct a as [|c a].
  - destruct Hb as [?|Hb]; [done | exact Hb].
  - rewrite append_cons. simpl. apply Hpq.
    unfold all_chars in Ha. simpl in Ha. by apply andb_prop in Ha as [? _].
Qed.

Ltac by_cases_on_char c :=
  destruct c as [[] [] [] [] [] [] [] []]; try discriminate; try reflexivity.

Lemma isdecimal_not_space (c : ascii) : Py.isdecimal c = true → Py.isspace c = false.
Proof. by_cases_on_char c. Qed.
Lemma isdecimal_not_minus (c : ascii) : Py.isdecimal c = true → Ascii.eqb c "-" = false.
Proof. by_cases_on_char c. Qed.
Lemma isspace_not_decimal (c : ascii) : Py.isspace c = true → Py.isdecimal c = false.
Proof. by_cases_on_char c. Qed.
Lemma isspace_not_column (c : ascii) : Py.isspace c = true → Re.is_column_char c = false.
Proof. by_cases_on_char c. Qed.
Lemma column_not_space (c : ascii) : Re.is_column_char c = true → Py.isspace c = false.
Proof. by_cases_on_char c. Qed.
Lemma rest_not_space (c : ascii) : Re.is_rest_char c = true → Py.isspace c = false.
Proof. by_cases_on_char c. Qed.
Lemma rest_not_column (c : ascii) : Re.is_rest_char c = true → Re.is_column_char c = false.
Proof. by_cases_on_char c. Qed.

Lemma truthy_nonempty (s : string) : s ≠ EmptyString → Py.truthy s = true.
Proof. by destruct s. Qed.

Lemma match_args_complete (ws1 sign digits ws2 ws3 col ws4 : string)
    (r : ascii) (after : string) :
  all_chars Py.isspace ws1 →
  sign = EmptyString ∨ sign = "-" →
  digits ≠ EmptyString → all_chars Py.isdecimal digits →
  all_chars Py.isspace ws2 →
  all_chars Py.isspace ws3 →
  col ≠ EmptyString → all_chars Re.is_column_char col →
  all_chars Py.isspace ws4 →
  Re.is_rest_char r = true →
  Re.match_args (ws1 +:+ sign +:+ digits +:+ ws2 +:+
                 String "," (ws3 +:+ col +:+ ws4 +:+ String r after))
  = Some (sign +:+ digits, col, String r EmptyString, after).
Proof.
  intros Hws1 Hsign Hdne Hdigits Hws2 Hws3 Hcne Hcol Hws4 Hr.
  unfold Re.match_args.
  rewrite (span_eq Py.isspace ws1); [| done |].
  2:{ destruct Hsign as [-> | ->]; [| done]. rewrite append_nil_l.
      apply (head_fails_app _ Py.isdecimal);
        [apply isdecimal_not_space | done | by left]. }
  cbn [snd].
  assert (Hminus : Re.opt_minus (sign +:+ digits +:+ ws2 +:+
                     String "," (ws3 +:+ col +:+ ws4 +:+ String r after))
                   = (sign, digits +:+ ws2 +:+
                     String "," (ws3 +:+ col +:+ ws4 +:+ String r after))).
  { destruct Hsign as [-> | ->]; [| done]. rewrite append_nil_l.
    destruct digits as [|d digits]; [done |]. rewrite append_cons. simpl.
    unfold all_chars in Hdigits. simpl in Hdigits.
    apply andb_prop in Hdigits as [Hd _].
    by rewrite (isdecimal_not_minus d Hd). }
  rewrite Hminus.
  rewrite (span_eq Py.isdecimal digits); [| done |].
  2:{ apply (head_fails_app _ Py.isspace);
        [apply isspace_not_decimal | done | by right]. }
  rewrite (truthy_nonempty digits Hdne).
  rewrite (span_eq Py.isspace ws2); [| done | done]. cbn [snd].
  rewrite Ascii.eqb_refl.
  rewrite (span_eq Py.isspace ws3); [| done |].
  2:{ apply (head_fails_app _ Re.is_column_char);
        [apply column_not_space | done | by left]. }
  cbn [snd].
  rewrite (span_eq Re.is_column_char col); [| done |].
  2:{ apply (head_fails_app _ Py.isspace);
        [apply isspace_not_column | done |].
      right. simpl. by apply rest_not_column. }
  rewrite (truthy_nonempty col Hcne).
  rewrite (span_eq Py.isspace ws4); [| done | by apply rest_not_space].
  cbn [snd]. by rewrite Hr.
Qed.

Lemma opt_minus_inv (s sign s' : string) :
  Re.opt_minus s = (sign, s') →
  (sign = EmptyString ∨ sign = "-") ∧ s = sign +:+ s'.
Proof.
  destruct s as [|c s]; simpl.
  - intros [= <- <-]. auto.
  - destruct (Ascii.eqb_spec c "-") as [->|_]; intros [= <- <-]; auto.
Qed.

Lemma span_inv (p : ascii → bool) (s a b : string) :
  Py.span p s = (a, b) → all_chars p a ∧ s = a +:+ b.
Proof.
  intros Hs. pose proof (span_prefix_all p s) as Hall.
  pose proof (span_app p s) as Happ. rewrite Hs in Hall, Happ. done.
Qed.

Lemma match_args_sound (s1 off col r after : string) :
  Re.match_args s1 = Some (off, col, r, after) →
  ∃ ws1 sign digits ws2 ws3 ws4 rc,
    s1 = ws1 +:+ sign +:+ digits +:+ ws2 +:+
         String "," (ws3 +:+ col +:+ ws4 +:+ String rc after)
    ∧ off = sign +:+ digits ∧ r = String rc EmptyString
    ∧ all_chars Py.isspace ws1
    ∧ (sign = EmptyString ∨ sign = "-")
    ∧ digits ≠ EmptyString ∧ all_chars Py.isdecimal digits
    ∧ all_chars Py.isspace ws2 ∧ all_chars Py.isspace ws3
    ∧ col ≠ EmptyString ∧ all_chars Re.is_column_char col
    ∧ all_chars Py.isspace ws4 ∧ Re.is_rest_char rc = true.
Proof.
  unfold Re.match_args.
  destruct (Py.span Py.isspace s1) as [ws1 s2] eqn:H1.
  apply span_inv in H1 as [Hws1 ->]. cbn [snd].
  destruct (Re.opt_minus s2) as [sign s3] eqn:H2.
  apply opt_minus_inv in H2 as [Hsign ->].
  destruct (Py.span Py.isdecimal s3) as [digits s4] eqn:H3.
  apply span_inv in H3 as [Hdigits ->].
  destruct digits as [|d digits]; [done |]. cbn [Py.truthy].
  destruct (Py.span Py.isspace s4) as [ws2 s5] eqn:H4.
  apply span_inv in H4 as [Hws2 ->]. cbn [snd].
  destruct s5 as [|comma s5]; [done |].
  destruct (Ascii.eqb_spec comma ",") as [->|_]; [| done].
  destruct (Py.span Py.isspace s5) as [ws3 s6] eqn:H5.
  apply span_inv in H5 as [Hws3 ->]. cbn [snd].
  destruct (Py.span Re.is_column_char s6) as [col' s7] eqn:H6.
  apply span_inv in H6 as [Hcol ->].
  destruct col' as [|c0 col']; [done |]. cbn [Py.truthy].
  destruct (Py.span Py.isspace s7) as [ws4 s8] eqn:H7.
  apply span_inv in H7 as [Hws4 ->]. cbn [snd].
  destruct s8 as [|rc s8]; [done |].
  destruct (Re.is_rest_char rc) eqn:Hrc; [| done].
  intros [= <- <- <- <-].
  exists ws1, sign, (String d digits), ws2, ws3, ws4, rc.
  split_and!; done.
Qed.

(** [match_macro] finds a match exactly when the pattern has one at the
    start of the text, and then the groups and the end of the match are
    those of the pattern: there is no other way to match. *)
Lemma match_macro_correct (s : string) (g : Re.groups) (after : string) :
  Re.match_macro s = Some (g, after) ↔ pattern_matches s g after.
Proof.
  split.
  - destruct s as [|p [|k [|b s1]]]; simpl; try done.
    destruct (Ascii.eqb_spec p "%") as [->|_]; [| done].
    destruct (Re.is_macro_letter k) eqn:Hk; [| done].
    destruct (Ascii.eqb_spec b "[") as [->|_]; [| done]. simpl.
    destruct (Re.match_args s1) as [[[[off col] r] after']|] eqn:Hargs; [| done].
    intros [= <- <-].
    apply match_args_sound in Hargs
      as (ws1 & sign & digits & ws2 & ws3 & ws4 & rc & -> & -> & -> & Hrest).
    destruct Hrest as (? & ? & ? & ? & ? & ? & ? & ? & ? & ?).
    by constructor.
  - intros Hm. destruct Hm. simpl.
    rewrite H. simpl. by rewrite match_args_complete.
Qed.

(** A macro after text without a percent sign is the first match of the
    scan, which resumes after it. *)
Lemma scan_first_macro (before s : string) (g : Re.groups) (after : string) :
  Py.contains "%" before = false →
  pattern_matches s g after →
  Re.scan (before +:+ s)
  = map Re.Lit (String.list_ascii_of_string before) ++ Re.Match g :: Re.scan after.
Proof.
  intros Hb Hm. apply match_macro_correct in Hm.
  induction before as [|c before IH].
  - rewrite append_nil_l. by apply scan_match.
  - simpl in Hb. apply orb_false_elim in Hb as [Hc Hb].
    rewrite append_cons. rewrite scan_nomatch.
    + simpl. by rewrite (IH Hb).
    + destruct (Re.match_macro (String c (before +:+ s))) as [[g' a']|] eqn:Hm';
        [| done].
      apply match_macro_inv in Hm' as [m [= -> _]]. done.
Qed.

(** ** Template compilation *)

Lemma repl_raise (vocabulary : gmap string nat) (g : Re.groups) (e : exn) :
  repl (Some vocabulary) g = Raise e →
  e = KeyError (Re.column g) ∧ vocabulary !! Re.column g = None
  ∧ Py.isdigit (Re.column g) = false.
Proof.
  unfold repl, getitem. destruct (Py.isdigit (Re.column g)); simpl; [done |].
  destruct (vocabulary !! Re.column g); simpl; [done |].
  by intros [= <-].
Qed.

Lemma repl_unknown (vocabulary : gmap string nat) (g : Re.groups) :
  Py.isdigit (Re.column g) = false → vocabulary !! Re.column g = None →
  repl (Some vocabulary) g = Raise (KeyError (Re.column g)).
Proof. intros Hd Hv. unfold repl, getitem. by rewrite Hd, Hv. Qed.

Lemma prepare_line_comment (vocabulary : option (gmap string nat)) (line : string) :
  Py.startswith "#" (Py.lstrip line) = true →
  prepare_line vocabulary line = OK line.
Proof.
  intros Hc. unfold prepare_line. by rewrite line_is_comment_lstrip, Hc.
Qed.

Lemma prepare_line_raise (vocabulary : option (gmap string nat)) (line : string)
    (e : exn) :
  prepare_line vocabulary line = Raise e →
  _wapiti_line_is_comment line = false
  ∧ Re.sub (repl vocabulary) line = Raise e.
Proof.
  unfold prepare_line. by destruct (_wapiti_line_is_comment line).
Qed.

Lemma prepare_wapiti_template_unfold (template : string)
    (vocabulary : option (gmap string nat)) :
  prepare_wapiti_template template vocabulary =
  let* lines := rmap (prepare_line vocabulary) (Py.splitlines template) in
  OK (Py.join (String Py.LF EmptyString) lines).
Proof. reflexivity. Qed.

(** C3: a template line whose first character after leading whitespace is
    ['#'] is copied through unchanged.  Taken alone it compiles to itself
    whatever the vocabulary; in a template that compiles, the output line at
    its position is the line itself; and when compilation raises, the
    exception comes from a macro of another line, one that is not a
    comment. *)
Theorem comment_line_copied_unchanged (vocabulary : option (gmap string nat))
    (template : string) (i : nat) (line : string) :
  Py.splitlines template !! i = Some line →
  Py.startswith "#" (Py.lstrip line) = true →
  prepare_line vocabulary line = OK line
  ∧ (∀ out, prepare_wapiti_template template vocabulary = OK out →
       ∃ lines, out = Py.join (String Py.LF EmptyString) lines
                ∧ length lines = length (Py.splitlines template)
                ∧ lines !! i = Some line)
  ∧ (∀ e, prepare_wapiti_template template vocabulary = Raise e →
       ∃ j other g,
         j ≠ i ∧ Py.splitlines template !! j = Some other
         ∧ _wapiti_line_is_comment other = false
         ∧ Re.Match g ∈ Re.scan other ∧ repl vocabulary g = Raise e).
Proof.
  intros Hi Hc. pose proof (prepare_line_comment vocabulary line Hc) as Hline.
  split_and!; [done | |].
  - intros out. rewrite prepare_wapiti_template_unfold.
    destruct (rmap _ _) as [lines|e] eqn:Hr; [| done].
    intros [= <-]. exists lines. split_and!; [done | by eapply rmap_length |].
    destruct (rmap_lookup _ _ _ _ _ Hr Hi) as (line' & Hl & Hp). congruence.
  - intros e. rewrite prepare_wapiti_template_unfold.
    destruct (rmap _ _) as [lines|e'] eqn:Hr; [done |].
    intros [= ->]. apply rmap_Raise in Hr as (j & other & Hj & Hp & _).
    apply prepare_line_raise in Hp as [Hnc Hsub].
    apply sub_raise in Hsub as (g & Hg & Hrepl).
    exists j, other, g. split_and!; try done.
    intros ->. rewrite Hi in Hj. injection Hj as <-.
    rewrite line_is_comment_lstrip in Hnc. congruence.
Qed.

(** C4: when a line that is not a comment has a match whose column is not a
    digit string and is not a key of the vocabulary, the compilation of the
    whole template raises [KeyError], for a name that the vocabulary does not
    have; no output is produced. *)
Theorem unknown_feature_aborts (vocabulary : gmap string nat)
    (template : string) (i : nat) (line : string) (j : nat) (g : Re.groups) :
  Py.splitlines template !! i = Some line →
  _wapiti_line_is_comment line = false →
  Re.scan line !! j = Some (Re.Match g) →
  Py.isdigit (Re.column g) = false →
  vocabulary !! Re.column g = None →
  ∃ k, prepare_wapiti_template template (Some vocabulary) = Raise (KeyError k)
       ∧ vocabulary !! k = None ∧ Py.isdigit k = false.
Proof.
  intros Hi Hnc Hj Hd Hv.
  assert (Hg : Re.Match g ∈ Re.scan line) by (apply list_elem_of_lookup; eauto).
  destruct (sub_fails _ _ _ _ Hg (repl_unknown _ _ Hd Hv)) as [e He].
  assert (Hline : prepare_line (Some vocabulary) line = Raise e)
    by (unfold prepare_line; by rewrite Hnc).
  assert (Hin : line ∈ Py.splitlines template)
    by (apply list_elem_of_lookup; eauto).
  destruct (rmap_fails _ _ _ _ Hin Hline) as [e' He'].
  rewrite prepare_wapiti_template_unfold, He'. cbn [rbind].
  apply rmap_Raise in He' as (i' & line' & _ & Hp & _).
  apply prepare_line_raise in Hp as [_ Hsub].
  apply sub_raise in Hsub as (g' & _ & Hrepl).
  apply repl_raise in Hrepl as (-> & Hv' & Hd'). eauto.
Qed.

(** ** The rewriting of a line, piece by piece *)

Lemma sub_empty (r : Re.groups → result string) :
  Re.sub r EmptyString = OK EmptyString.
Proof. reflexivity. Qed.

(** At a match, [sub] puts what [repl] returns and goes on after the match. *)
Lemma sub_match (r : Re.groups → result string) (s : string) (g : Re.groups)
    (after : string) :
  Re.match_macro s = Some (g, after) →
  Re.sub r s = let* t := r g in let* out := Re.sub r after in OK (t +:+ out).
Proof.
  intros Hm. rewrite !sub_unfold, (scan_match _ _ _ Hm).
  cbn [rmap Re.on_piece]. destruct (r g) as [t|e]; [| done]. cbn [rbind].
  destruct (rmap (Re.on_piece r) (Re.scan after)) as [parts|e]; [| done].
  cbn [rbind]. by rewrite join_empty_cons.
Qed.

(** Where there is no match, [sub] copies the character and goes on with the
    next one. *)
Lemma sub_lit (r : Re.groups → result string) (c : ascii) (s : string) :
  Re.match_macro (String c s) = None →
  Re.sub r (String c s) = let* out := Re.sub r s in OK (String c out).
Proof.
  intros Hm. rewrite !sub_unfold, (scan_nomatch _ _ Hm).
  cbn [rmap Re.on_piece rbind].
  destruct (rmap (Re.on_piece r) (Re.scan s)) as [parts|e]; [| done].
  cbn [rbind]. by rewrite join_empty_cons.
Qed.

(** [sub] with [repl] returns a text exactly when the line is rewritten to
    that text in the sense of the grammar. *)
Lemma sub_compiled_line (vocabulary : option (gmap string nat))
    (line out : string) :
  Re.sub (repl vocabulary) line = OK out ↔ compiled_line vocabulary line out.
Proof.
  split.
  - revert out.
    induction line as [line IH] using (induction_ltof1 _ String.length).
    unfold ltof in IH. intros out.
    destruct line as [|c s]; [intros [= <-]; constructor |].
    destruct (Re.match_macro (String c s)) as [[g after]|] eqn:Hm.
    + rewrite (sub_match _ _ _ _ Hm).
      destruct (repl vocabulary g) as [t|e] eqn:Ht; [| done]. cbn [rbind].
      destruct (Re.sub (repl vocabulary) after) as [out'|e] eqn:Ho; [| done].
      intros [= <-]. apply (compiled_macro _ _ g after);
        [by apply match_macro_correct | done |].
      apply IH; [| done]. apply match_macro_inv in Hm as [m [= -> ->]].
      simpl. rewrite append_length. lia.
    + rewrite (sub_lit _ _ _ Hm).
      destruct (Re.sub (repl vocabulary) s) as [out'|e] eqn:Ho; [| done].
      intros [= <-]. constructor.
      * intros g after Hp%match_macro_correct. congruence.
      * apply IH; [simpl; lia | done].
  - induction 1 as [|c s out Hno _ IH|s g after t out Hp Ht _ IH]; [done | |].
    + rewrite sub_lit, IH; [done |].
      destruct (Re.match_macro (String c s)) as [[g after]|] eqn:Hm; [| done].
      exfalso. by apply (Hno g after), match_macro_correct.
    + apply match_macro_correct in Hp. by rewrite (sub_match _ _ _ _ Hp), Ht, IH.
Qed.

Lemma prepare_line_compiles (vocabulary : option (gmap string nat))
    (line line' : string) :
  prepare_line vocabulary line = OK line' ↔ line_compiles_to vocabulary line line'.
Proof.
  unfold prepare_line, line_compiles_to.
  destruct (_wapiti_line_is_comment line); cbn [negb].
  - split; [by intros [= <-] | by intros ->].
  - apply sub_compiled_line.
Qed.

Lemma prepare_line_nothing (vocabulary : option (gmap string nat))
    (line : string) :
  nothing_to_compile line → prepare_line vocabulary line = OK line.
Proof.
  intros [Hc|Hno]; unfold prepare_line.
  - by rewrite Hc.
  - destruct (_wapiti_line_is_comment line); [done |]. by apply sub_no_match.
Qed.

(** C6, as the code has it: the template is split at its line boundaries
    (those of [str.splitlines]), each line is compiled on its own, and the
    compiled lines are joined by single LF characters, so that every line
    boundary inside the template comes out as LF and the one at its very end
    is dropped.  The compiled lines are one for one those of the template.
    A comment line stays as it is.  On any other line the text outside the
    macros is unchanged, character for character and in its place, and the
    text of each macro is replaced by what [repl] returns for it: the
    compiled line is the rewriting of the line in the sense of the grammar,
    and nothing else is.  A line on which no macro is found is therefore
    copied as it is; and a template all of whose lines are comments or have
    no macro, whose only line boundaries are LF and which does not end in
    one, is returned as it is. *)
Theorem lines_compiled_independently (vocabulary : option (gmap string nat))
    (template out : string) :
  prepare_wapiti_template template vocabulary = OK out →
  ∃ lines,
    out = Py.join (String Py.LF EmptyString) lines
    ∧ Forall2 (λ line line', prepare_line vocabulary line = OK line')
              (Py.splitlines template) lines
    ∧ Forall2 (λ line line',
                 line_compiles_to vocabulary line line'
                 ∧ ∀ other, line_compiles_to vocabulary line other →
                            other = line')
              (Py.splitlines template) lines
    ∧ (∀ i line, Py.splitlines template !! i = Some line →
         (∀ g, Re.Match g ∉ Re.scan line) → lines !! i = Some line)
    ∧ (Forall nothing_to_compile (Py.splitlines template) →
       only_lf template = true →
       Py.endswith Py.LF template = false → out = template).
Proof.
  rewrite prepare_wapiti_template_unfold.
  destruct (rmap _ _) as [lines|e] eqn:Hr; [| done].
  intros [= <-]. exists lines.
  split_and!; [done | by apply rmap_OK | | |].
  - apply rmap_OK in Hr. eapply Forall2_impl; [exact Hr |].
    intros line line' Hp. split; [by apply prepare_line_compiles |].
    intros other Ho%prepare_line_compiles. congruence.
  - intros i line Hi Hno.
    destruct (rmap_lookup _ _ _ _ _ Hr Hi) as (line' & Hl & Hp).
    rewrite prepare_line_nothing in Hp by (by right). congruence.
  - intros Hall Hlf Hend.
    rewrite (rmap_total _ id) in Hr.
    + injection Hr as <-. rewrite map_id. by apply join_splitlines.
    + intros line Hin. apply prepare_line_nothing.
      by apply (proj1 (Forall_forall _ _) Hall).
Qed.

Lemma comment_line_copied_unchanged_witness :
  Py.splitlines template_with_comment !! 1 = Some commented_line
  ∧ Py.startswith "#" (Py.lstrip commented_line) = true
  ∧ prepare_line (Some ∅) commented_line = OK commented_line
  ∧ prepare_wapiti_template template_with_comment (Some vocab_token_tag)
    = OK ("U:%x[-1,1]" +:+ nl +:+ commented_line).
Proof.
  split; [reflexivity |]. split; [reflexivity |].
  split; [| reflexivity].
  exact (proj1 (comment_line_copied_unchanged
                  (Some ∅) template_with_comment 1 commented_line
                  eq_refl eq_refl)).
Defined.

Lemma unknown_feature_aborts_witness :
  Py.splitlines template_with_unknown !! 1 = Some unknown_line
  ∧ Re.scan unknown_line !! 2 = Some (Re.Match (Re.Groups "%x" "0" "pos" "]"))
  ∧ ∃ k, prepare_wapiti_template template_with_unknown (Some vocab_token_tag)
         = Raise (KeyError k)
         ∧ vocab_token_tag !! k = None ∧ Py.isdigit k = false.
Proof.
  split; [reflexivity |]. split; [reflexivity |].
  apply (unknown_feature_aborts vocab_token_tag template_with_unknown
           1 unknown_line 2 (Re.Groups "%x" "0" "pos" "]"));
    reflexivity.
Defined.

(** C6, as stated, fails, in templates without any macro: the LF that ends
    a template is not in the output; of two LF at the end only the last is
    dropped, so that the output has a line less than the template; and a
    CR LF boundary comes out as LF. *)
Lemma line_terminators_not_preserved :
  prepare_wapiti_template ("a" +:+ nl) (Some ∅) = OK "a"
  ∧ "a" ≠ "a" +:+ nl
  ∧ prepare_wapiti_template ("a" +:+ nl +:+ nl) (Some ∅) = OK ("a" +:+ nl)
  ∧ Py.splitlines ("a" +:+ nl +:+ nl) = ["a"; EmptyString]
  ∧ Py.splitlines ("a" +:+ nl) = ["a"]
  ∧ prepare_wapiti_template ("a" +:+ String Py.CR nl +:+ "b") (Some ∅)
    = OK ("a" +:+ nl +:+ "b")
  ∧ "a" +:+ nl +:+ "b" ≠ "a" +:+ String Py.CR nl +:+ "b".
Proof.
  split_and!;
    [reflexivity | discriminate | reflexivity | reflexivity | reflexivity
    | reflexivity | discriminate].
Qed.

Lemma lines_compiled_independently_witness :
  prepare_wapiti_template template_three_lines (Some vocab_token_tag)
  = OK ("U:%x[0,1]" +:+ nl +:+ nl +:+ "B")
  ∧ ∃ lines,
      "U:%x[0,1]" +:+ nl +:+ nl +:+ "B" = Py.join nl lines
      ∧ Forall2 (λ line line', prepare_line (Some vocab_token_tag) line = OK line')
                (Py.splitlines template_three_lines) lines
      ∧ Forall2 (λ line line',
                   line_compiles_to (Some vocab_token_tag) line line'
                   ∧ ∀ other, line_compiles_to (Some vocab_token_tag) line other →
                              other = line')
                (Py.splitlines template_three_lines) lines.
Proof.
  split; [reflexivity |].
  destruct (lines_compiled_independently (Some vocab_token_tag)
              template_three_lines ("U:%x[0,1]" +:+ nl +:+ nl +:+ "B") eq_refl)
    as (lines & Hout & Hall & Hcomp & _).
  exists lines. split; [exact Hout |]. split; [exact Hall | exact Hcomp].
Defined.

(** ** The vocabulary *)

Section SetOrderFacts.
Context `{SetOrder}.

Lemma elem_of_tuple_of_set (s : gset string) (k : string) :
  k ∈ tuple_of_set s ↔ k ∈ s.
Proof. rewrite (tuple_of_set_perm s). apply elem_of_elements. Qed.

Lemma NoDup_tuple_of_set (s : gset string) : NoDup (tuple_of_set s).
Proof. rewrite (tuple_of_set_perm s). apply NoDup_elements. Qed.

End SetOrderFacts.

Lemma elem_of_get_combined_keys (feature_dicts : list dict) (k : string) :
  k ∈ get_combined_keys feature_dicts
  ↔ ∃ d : dict, d ∈ feature_dicts ∧ k ∈ dict_keys d.
Proof.
  unfold get_combined_keys. rewrite elem_of_union_list. split.
  - intros (s & Hs & Hk). apply list_elem_of_fmap in Hs as (d & -> & Hd).
    exists d. split; [done |]. by apply elem_of_list_to_set in Hk.
  - intros (d & Hd & Hk). exists (list_to_set (dict_keys d)). split.
    + apply list_elem_of_fmap. by exists d.
    + by apply elem_of_list_to_set.
Qed.

(** The loop of [partial_fit]: with no batch the keys stay as they were,
    otherwise they are the old and the observed ones without the front
    names. *)
Lemma elem_of_fold_keys (mtf keys : gset string) (X : list (list dict))
    (k : string) :
  (k ∈ foldl (λ keys feature_dicts,
                (keys ∪ get_combined_keys feature_dicts) ∖ mtf) keys X)
  ↔ (X = [] ∧ k ∈ keys)
    ∨ (X ≠ [] ∧ (k ∉ mtf)
       ∧ (k ∈ keys ∨ ∃ fds, fds ∈ X ∧ k ∈ get_combined_keys fds)).
Proof.
  revert keys. induction X as [|fds X IH]; intros keys; simpl.
  - split; [by left | intros [[_ ?]|[? _]]; done].
  - rewrite IH. clear IH. split.
    + intros [[-> Hk]|(HX & Hm & Hk)]; right; (split; [done |]).
      * apply elem_of_difference in Hk as [Hk Hm]. split; [done |].
        apply elem_of_union in Hk as [?|?]; [by left | right].
        exists fds. split; [by left | done].
      * split; [done |]. destruct Hk as [Hk|(fds' & Hin & Hk)].
        -- apply elem_of_difference in Hk as [Hk _].
           apply elem_of_union in Hk as [?|?]; [by left | right].
           exists fds. split; [by left | done].
        -- right. exists fds'. split; [by right | done].
    + intros [[? _]|(_ & Hm & Hk)]; [done |].
      destruct X as [|fds' X].
      * left. split; [done |]. apply elem_of_difference. split; [| done].
        apply elem_of_union. destruct Hk as [?|(fds' & Hin & Hk)]; [by left |].
        apply list_elem_of_singleton in Hin as ->. by right.
      * right. split; [done |]. split; [done |].
        destruct Hk as [Hk|(fds'' & Hin & Hk)].
        -- left. apply elem_of_difference. split; [| done].
           apply elem_of_union. by left.
        -- apply elem_of_cons in Hin as [->|Hin].
           ++ left. apply elem_of_difference. split; [| done].
              apply elem_of_union. by right.
           ++ right. by exists fds''.
Qed.

Lemma dict_of_enumerate_snoc (names : list string) (x : string) :
  WapitiFeatureEncoder.dict_of_enumerate (names ++ [x])
  = <[x := length names]> (WapitiFeatureEncoder.dict_of_enumerate names).
Proof.
  unfold WapitiFeatureEncoder.dict_of_enumerate.
  rewrite imap_app, foldl_app. simpl. by rewrite Nat.add_0_r.
Qed.

(** The index the vocabulary keeps for a name is the position of its last
    occurrence in the list of names. *)
Lemma dict_of_enumerate_lookup (names : list string) (k : string) (i : nat) :
  WapitiFeatureEncoder.dict_of_enumerate names !! k = Some i
  ↔ names !! i = Some k ∧ ∀ j : nat, (i < j)%nat → names !! j ≠ Some k.
Proof.
  revert i. induction names as [|x names IH] using rev_ind; intros i.
  - unfold WapitiFeatureEncoder.dict_of_enumerate. simpl.
    rewrite lookup_empty. split; [done | by intros [? _]].
  - rewrite dict_of_enumerate_snoc. destruct (decide (x = k)) as [->|Hne].
    + rewrite lookup_insert_eq. split.
      * intros [= <-]. split.
        -- by rewrite lookup_app_r, Nat.sub_diag.
        -- intros j Hj. rewrite lookup_ge_None_2; [done |].
           rewrite length_app. simpl. lia.
      * intros [Hi Hlast]. f_equal.
        pose proof (lookup_lt_Some _ _ _ Hi) as Hlt.
        rewrite length_app in Hlt. simpl in Hlt.
        destruct (decide (i = length names)) as [->|Hn]; [done |].
        exfalso. apply (Hlast (length names)); [lia |].
        by rewrite lookup_app_r, Nat.sub_diag.
    + rewrite lookup_insert_ne by done. rewrite IH. split; intros [Hi Hlast].
      * split; [by apply lookup_app_l_Some |].
        intros j Hj Hjk. apply lookup_app_Some in Hjk as [Hjk|[_ Hjk]].
        -- by apply (Hlast j).
        -- apply list_lookup_singleton_Some in Hjk as [_ ?]. done.
      * apply lookup_app_Some in Hi as [Hi|[_ Hi]].
        -- split; [done |]. intros j Hj Hjk. apply (Hlast j Hj).
           by apply lookup_app_l_Some.
        -- apply list_lookup_singleton_Some in Hi as [_ ?]. done.
Qed.

Lemma dict_of_enumerate_NoDup (names : list string) (k : string) (i : nat) :
  NoDup names →
  WapitiFeatureEncoder.dict_of_enumerate names !! k = Some i
  ↔ names !! i = Some k.
Proof.
  intros Hnd. rewrite dict_of_enumerate_lookup. split; [by intros [? _] |].
  intros Hi. split; [done |]. intros j Hj Hjk.
  pose proof (NoDup_lookup _ _ _ _ Hnd Hi Hjk). lia.
Qed.

(** Every name of the list has an index, not before any of its positions. *)
Lemma dict_of_enumerate_last (names : list string) (k : string) (i : nat) :
  names !! i = Some k →
  ∃ j : nat,
    WapitiFeatureEncoder.dict_of_enumerate names !! k = Some j ∧ (i ≤ j)%nat.
Proof.
  revert i. induction names as [|x names IH] using rev_ind; intros i Hi; [done |].
  rewrite dict_of_enumerate_snoc.
  pose proof (lookup_lt_Some _ _ _ Hi) as Hlt.
  rewrite length_app in Hlt. simpl in Hlt.
  destruct (decide (x = k)) as [->|Hne].
  - exists (length names). rewrite lookup_insert_eq. split; [done | lia].
  - rewrite lookup_insert_ne by done.
    apply lookup_app_Some in Hi as [Hi|[_ Hi]].
    + by apply IH.
    + apply list_lookup_singleton_Some in Hi as [_ ?]. done.
Qed.

(** What one call of [partial_fit] gives when it sees at least one batch, or
    when the encoder was never fitted: the front names, then the other names
    that were known or observed, each once, every name at its own index. *)
Lemma partial_fit_pinned `{SetOrder} (self : WapitiFeatureEncoder.t)
    (X : list (list dict)) :
  X ≠ [] ∨ WapitiFeatureEncoder.feature_names_ self = None →
  NoDup (WapitiFeatureEncoder.move_to_front self) →
  let mtf := WapitiFeatureEncoder.move_to_front self in
  let we := WapitiFeatureEncoder.partial_fit self X in
  ∃ others v,
    WapitiFeatureEncoder.feature_names_ we = Some (mtf ++ others)
    ∧ WapitiFeatureEncoder.vocabulary_ we = Some v
    ∧ NoDup (mtf ++ others)
    ∧ (∀ i k, v !! k = Some i ↔ (mtf ++ others) !! i = Some k)
    ∧ (∀ k, k ∈ others ↔
         (k ∉ mtf)
         ∧ (k ∈ default [] (WapitiFeatureEncoder.feature_names_ self)
            ∨ ∃ (fds : list dict) (d : dict),
                fds ∈ X ∧ d ∈ fds ∧ k ∈ dict_keys d)).
Proof.
  intros Hcall Hnd mtf we. unfold we, WapitiFeatureEncoder.partial_fit.
  set (keys := foldl _ _ X).
  assert (Hkeys : ∀ k, k ∈ tuple_of_set keys ↔
            (k ∉ mtf)
            ∧ (k ∈ default [] (WapitiFeatureEncoder.feature_names_ self)
               ∨ ∃ (fds : list dict) (d : dict),
                   fds ∈ X ∧ d ∈ fds ∧ k ∈ dict_keys d)).
  { intros k. rewrite elem_of_tuple_of_set. unfold keys.
    rewrite elem_of_fold_keys. rewrite !elem_of_list_to_set. split.
    - intros [[-> Hk]|(_ & Hm & Hk)].
      + destruct Hcall as [?|Hnone]; [done |]. rewrite Hnone in Hk.
        by apply elem_of_nil in Hk.
      + split; [done |]. destruct Hk as [?|(fds & Hin & Hk)]; [by left |].
        right. apply elem_of_get_combined_keys in Hk as (d & ? & ?). eauto.
    - intros [Hm Hk]. destruct X as [|fds0 X].
      + left. split; [done |]. destruct Hk as [?|(? & ? & Hin & _)]; [done |].
        by apply elem_of_nil in Hin.
      + right. split; [done |]. split; [done |].
        destruct Hk as [?|(fds & d & ? & ? & ?)]; [by left |].
        right. exists fds. split; [done |].
        apply elem_of_get_combined_keys. eauto. }
  assert (Hnd' : NoDup (mtf ++ tuple_of_set keys)).
  { apply NoDup_app. split_and!; [done | | apply NoDup_tuple_of_set].
    intros k Hk Hk'. apply Hkeys in Hk' as [? _]. done. }
  exists (tuple_of_set keys), (WapitiFeatureEncoder.dict_of_enumerate
                                 (mtf ++ tuple_of_set keys)).
  split_and!; try done.
  intros i k. by apply dict_of_enumerate_NoDup.
Qed.

(** A fresh encoder with front names [token] and [tag], fitted on anything,
    has [token] at column 0 and [tag] at column 1. *)
Lemma fresh_fit_token_tag `{SetOrder} (X : list (list dict)) :
  ∃ v, WapitiFeatureEncoder.vocabulary_
         (WapitiFeatureEncoder.fit
            (WapitiFeatureEncoder.__init__ ["token"; "tag"]) X) = Some v
       ∧ v !! "token" = Some 0 ∧ v !! "tag" = Some 1.
Proof.
  destruct (partial_fit_pinned
              (WapitiFeatureEncoder.__init__ ["token"; "tag"]) X)
    as (others & v & _ & Hv & _ & Hidx & _).
  - by right.
  - simpl. apply NoDup_cons. split; [| apply NoDup_singleton].
    by intros [=]%list_elem_of_singleton.
  - exists v. split; [exact Hv |]. split; by apply Hidx.
Qed.

Lemma prepare_pos_template (v : gmap string nat) :
  v !! "tag" = Some 1 →
  prepare_wapiti_template "*:Pos-1 L=%x[-1, tag]" (Some v)
  = OK "*:Pos-1 L=%x[-1,1]".
Proof.
  intros Hv. rewrite prepare_wapiti_template_unfold.
  change (Py.splitlines "*:Pos-1 L=%x[-1, tag]") with ["*:Pos-1 L=%x[-1, tag]"].
  cbn [rmap]. unfold prepare_line.
  change (_wapiti_line_is_comment "*:Pos-1 L=%x[-1, tag]") with false.
  cbn [negb]. rewrite sub_unfold.
  let l := eval vm_compute in (Re.scan "*:Pos-1 L=%x[-1, tag]") in
  change (Re.scan "*:Pos-1 L=%x[-1, tag]") with l.
  cbn [rmap Re.on_piece rbind]. unfold repl, getitem. cbn [Re.column].
  change (Py.isdigit "tag") with false. cbn [negb]. rewrite Hv.
  reflexivity.
Qed.

(** C1: with front names [token] and [tag], a fresh encoder fitted on any
    observations has [token] at column 0 and [tag] at column 1, and compiles
    ["*:Pos-1 L=%x[-1, tag]"] to ["*:Pos-1 L=%x[-1,1]"]; the macro
    [%m[0,0,".?.?$"]], whose column is a digit string, comes out as it is
    whatever the vocabulary, even an empty or a missing one. *)
Theorem prepare_template_examples `{SetOrder} (X : list (list dict))
    (vocabulary : option (gmap string nat)) :
  let we := WapitiFeatureEncoder.fit
              (WapitiFeatureEncoder.__init__ ["token"; "tag"]) X in
  let numeric := "%m[0,0," +:+ dquote +:+ ".?.?$" +:+ dquote +:+ "]" in
  (∃ v, WapitiFeatureEncoder.vocabulary_ we = Some v
        ∧ v !! "token" = Some 0 ∧ v !! "tag" = Some 1)
  ∧ WapitiFeatureEncoder.prepare_template we "*:Pos-1 L=%x[-1, tag]"
    = OK "*:Pos-1 L=%x[-1,1]"
  ∧ prepare_wapiti_template numeric vocabulary = OK numeric.
Proof.
  intros we numeric.
  destruct (fresh_fit_token_tag X) as (v & Hv & Htoken & Htag).
  split_and!.
  - by exists v.
  - unfold WapitiFeatureEncoder.prepare_template. fold we in Hv. rewrite Hv.
    by apply prepare_pos_template.
  - reflexivity.
Qed.

(** [partial_fit] without any batch, on a fitted encoder: the keys are the
    names already known, front names included, and they are appended to the
    front names once more. *)
Lemma partial_fit_nil `{SetOrder} (self : WapitiFeatureEncoder.t)
    (names : list string) :
  WapitiFeatureEncoder.feature_names_ self = Some names →
  let names' := WapitiFeatureEncoder.move_to_front self
                ++ tuple_of_set (list_to_set names) in
  WapitiFeatureEncoder.feature_names_
    (WapitiFeatureEncoder.partial_fit self []) = Some names'
  ∧ WapitiFeatureEncoder.vocabulary_
      (WapitiFeatureEncoder.partial_fit self [])
    = Some (WapitiFeatureEncoder.dict_of_enumerate names').
Proof.
  intros Hn. unfold WapitiFeatureEncoder.partial_fit. simpl. by rewrite Hn.
Qed.

Lemma partial_fit_nil_unpins `{SetOrder} (self : WapitiFeatureEncoder.t)
    (names : list string) (k : string) :
  WapitiFeatureEncoder.feature_names_ self = Some names → k ∈ names →
  ∃ (v : gmap string nat) (j : nat),
    WapitiFeatureEncoder.vocabulary_
      (WapitiFeatureEncoder.partial_fit self []) = Some v
    ∧ v !! k = Some j
    ∧ (length (WapitiFeatureEncoder.move_to_front self) ≤ j)%nat.
Proof.
  intros Hn Hk. destruct (partial_fit_nil self names Hn) as [_ Hv].
  assert (Hin : k ∈ tuple_of_set (list_to_set names))
    by (apply elem_of_tuple_of_set; by apply elem_of_list_to_set).
  apply list_elem_of_lookup in Hin as [i Hi].
  destruct (dict_of_enumerate_last
              (WapitiFeatureEncoder.move_to_front self
               ++ tuple_of_set (list_to_set names)) k
              (length (WapitiFeatureEncoder.move_to_front self) + i))
    as (j & Hj & Hle).
  { by rewrite lookup_app_r, Nat.add_comm, Nat.add_sub by lia. }
  eexists _, j. split; [exact Hv |]. split; [exact Hj | lia].
Qed.

(** C2, at an input where the code departs from it: an encoder with front
    names [a] and [b] is fitted on one observation with the features [a],
    [b] and [c], which gives the names [a], [b], [c]; a further
    [partial_fit] with an empty list of batches appends [a] (and [b]) again
    after the front names, and the index of [a] is no longer 0. *)
Theorem partial_fit_empty_batch_unpins `{SetOrder} :
  let we1 := WapitiFeatureEncoder.fit
               (WapitiFeatureEncoder.__init__ ["a"; "b"])
               [[ [("a", VInt 1); ("b", VInt 2); ("c", VInt 3)] ]] in
  let we2 := WapitiFeatureEncoder.partial_fit we1 [] in
  WapitiFeatureEncoder.feature_names_ we1 = Some ["a"; "b"; "c"]
  ∧ ∃ (others : list string) (v : gmap string nat) (j : nat),
      WapitiFeatureEncoder.feature_names_ we2 = Some (["a"; "b"] ++ others)
      ∧ "a" ∈ others
      ∧ WapitiFeatureEncoder.vocabulary_ we2 = Some v
      ∧ v !! "a" = Some j ∧ (2 ≤ j)%nat.
Proof.
  intros we1 we2.
  assert (Hn1 : WapitiFeatureEncoder.feature_names_ we1 = Some ["a"; "b"; "c"]).
  { unfold we1, WapitiFeatureEncoder.fit, WapitiFeatureEncoder.partial_fit.
    cbn [WapitiFeatureEncoder.feature_names_
           WapitiFeatureEncoder.move_to_front WapitiFeatureEncoder.__init__].
    set (keys := foldl _ _ _).
    assert (keys = {["c"]}) as -> by reflexivity.
    pose proof (tuple_of_set_perm ({["c"]} : gset string)) as Hp.
    rewrite elements_singleton in Hp.
    apply Permutation_singleton_r in Hp. by rewrite Hp. }
  split; [exact Hn1 |].
  destruct (partial_fit_nil we1 _ Hn1) as [Hn2 _].
  destruct (partial_fit_nil_unpins we1 _ "a" Hn1) as (v & j & Hv & Hj & Hle);
    [set_solver |].
  exists (tuple_of_set (list_to_set ["a"; "b"; "c"])), v, j.
  split_and!; [exact Hn2 | | exact Hv | exact Hj | exact Hle].
  apply elem_of_tuple_of_set. set_solver.
Qed.

(** C7, at an input where the code departs from it: [reset] sets
    [feature_names_] to [None] and leaves [vocabulary_] as it was; after
    [reset] the encoder still compiles a template with the indices it had
    learnt. *)
Theorem reset_keeps_vocabulary `{SetOrder} (X : list (list dict)) :
  let we := WapitiFeatureEncoder.fit
              (WapitiFeatureEncoder.__init__ ["token"; "tag"]) X in
  WapitiFeatureEncoder.feature_names_ (WapitiFeatureEncoder.reset we) = None
  ∧ WapitiFeatureEncoder.vocabulary_ (WapitiFeatureEncoder.reset we)
    = WapitiFeatureEncoder.vocabulary_ we
  ∧ (∃ v, WapitiFeatureEncoder.vocabulary_ (WapitiFeatureEncoder.reset we)
          = Some v ∧ v !! "tag" = Some 1)
  ∧ WapitiFeatureEncoder.prepare_template (WapitiFeatureEncoder.reset we)
      "*:Pos-1 L=%x[-1, tag]" = OK "*:Pos-1 L=%x[-1,1]".
Proof.
  intros we. destruct (fresh_fit_token_tag X) as (v & Hv & _ & Htag).
  fold we in Hv. split_and!; [done | done | by exists v |].
  unfold WapitiFeatureEncoder.prepare_template, WapitiFeatureEncoder.reset.
  cbn [WapitiFeatureEncoder.vocabulary_]. rewrite Hv.
  by apply prepare_pos_template.
Qed.

(** ** Rows *)

Lemma dict_get_elem_of (d : dict) (k : string) (v : value) :
  NoDup (dict_keys d) → (k, v) ∈ d → dict_get d k = v.
Proof.
  induction d as [|[k' v'] d IH]; simpl; intros Hnd Hin.
  - by apply elem_of_nil in Hin.
  - apply NoDup_cons in Hnd as [Hk' Hnd].
    destruct (String.eqb_spec k' k) as [->|Hne].
    + apply elem_of_cons in Hin as [[= ->]|Hin]; [done |].
      exfalso. apply Hk'. apply list_elem_of_fmap. by exists (k, v).
    + apply elem_of_cons in Hin as [[= -> ->]|Hin]; [done |]. by apply IH.
Qed.

Lemma dict_get_missing (d : dict) (k : string) :
  k ∉ dict_keys d → dict_get d k = VNone.
Proof.
  induction d as [|[k' v'] d IH]; simpl; intros Hk; [done |].
  apply not_elem_of_cons in Hk as [Hne Hk].
  destruct (String.eqb_spec k' k) as [->|_]; [done | by apply IH].
Qed.

(** [d.get] does not depend on the order in which the keys were inserted. *)
Lemma dict_get_perm (d d' : dict) (k : string) :
  NoDup (dict_keys d) → d' ≡ₚ d → dict_get d' k = dict_get d k.
Proof.
  intros Hnd Hp.
  assert (Hnd' : NoDup (dict_keys d')) by (unfold dict_keys; by rewrite Hp).
  destruct (decide (k ∈ dict_keys d)) as [Hin|Hout].
  - apply list_elem_of_fmap in Hin as ([k0 v] & -> & Hin). simpl.
    rewrite (dict_get_elem_of d _ v Hnd Hin).
    apply dict_get_elem_of; [done |]. by rewrite Hp.
  - rewrite (dict_get_missing d k Hout).
    apply dict_get_missing. unfold dict_keys in *. by rewrite Hp.
Qed.

Lemma split_no_sep (sep : ascii) (s : string) :
  Py.contains sep s = false → Py.split sep s = [s].
Proof.
  induction s as [|c s IH]; simpl; [done |].
  intros [Hc Hs]%orb_false_elim. rewrite Hc, (IH Hs). done.
Qed.

Lemma split_app_sep (sep : ascii) (a b : string) :
  Py.contains sep a = false →
  Py.split sep (a +:+ String sep b) = a :: Py.split sep b.
Proof.
  induction a as [|c a IH]; intros Ha.
  - rewrite append_nil_l. simpl. by rewrite Ascii.eqb_refl.
  - simpl in Ha. apply orb_false_elim in Ha as [Hc Ha].
    rewrite append_cons. simpl. rewrite Hc, (IH Ha). done.
Qed.

(** Splitting a joined row at the separator gives the columns back, when
    no column contains the separator. *)
Lemma split_join (sep : ascii) (cols : list string) :
  cols ≠ [] → Forall (λ col, Py.contains sep col = false) cols →
  Py.split sep (Py.join (String sep EmptyString) cols) = cols.
Proof.
  induction cols as [|col cols IH]; [done |]. intros _ Hall.
  apply Forall_cons in Hall as [Hcol Hall].
  destruct cols as [|col' cols]; [by apply split_no_sep |].
  rewrite join_cons2, append_cons, append_nil_l.
  rewrite split_app_sep by done. f_equal. by apply IH.
Qed.

Lemma transform_single_fitted `{Utils} (self : WapitiFeatureEncoder.t)
    (names : list string) (feature_dicts : list dict) :
  WapitiFeatureEncoder.feature_names_ self = Some names →
  WapitiFeatureEncoder.transform_single self feature_dicts
  = OK (map (WapitiFeatureEncoder.row names) feature_dicts).
Proof.
  intros Hn. unfold WapitiFeatureEncoder.transform_single.
  apply rmap_total. intros dct _. by rewrite Hn.
Qed.

(** C5: a fitted encoder turns a sequence of observations into as many rows.
    A row is its columns joined by single spaces, one column per name of
    the vocabulary and in its order, the column of a name being [tostr] of
    the value under it, and [tostr(None)] when the observation has no such
    key.  When no column contains a space, splitting the row at spaces
    gives the columns back.  An observation with the same items inserted in
    another order has the same row. *)
Theorem transform_single_rows `{Utils} (self : WapitiFeatureEncoder.t)
    (names : list string) (feature_dicts : list dict) :
  WapitiFeatureEncoder.feature_names_ self = Some names →
  ∃ rows,
    WapitiFeatureEncoder.transform_single self feature_dicts = OK rows
    ∧ length rows = length feature_dicts
    ∧ ∀ (i : nat) (dct : dict), feature_dicts !! i = Some dct →
        ∃ cols,
          rows !! i = Some (Py.join " " cols)
          ∧ length cols = length names
          ∧ (∀ (j : nat) key, names !! j = Some key →
               cols !! j = Some (tostr (dict_get dct key)))
          ∧ (∀ (j : nat) key, names !! j = Some key → key ∉ dict_keys dct →
               cols !! j = Some (tostr VNone))
          ∧ (names ≠ [] →
             Forall (λ col, Py.contains " " col = false) cols →
             Py.split " " (Py.join " " cols) = cols)
          ∧ (∀ dct' : dict, NoDup (dict_keys dct) → dct' ≡ₚ dct →
               WapitiFeatureEncoder.row names dct' = Py.join " " cols).
Proof.
  intros Hn. exists (map (WapitiFeatureEncoder.row names) feature_dicts).
  split; [by apply transform_single_fitted |].
  split; [by rewrite length_map |].
  intros i dct Hi.
  exists (map (λ key, tostr (dict_get dct key)) names).
  split_and!.
  - by rewrite list_lookup_fmap, Hi.
  - by rewrite length_map.
  - intros j key Hj. by rewrite list_lookup_fmap, Hj.
  - intros j key Hj Hout.
    rewrite list_lookup_fmap, Hj. simpl. by rewrite (dict_get_missing _ _ Hout).
  - intros Hne Hall. apply split_join; [| done]. by destruct names.
  - intros dct' Hnd Hp. unfold WapitiFeatureEncoder.row. f_equal.
    apply map_ext. intros key. by rewrite (dict_get_perm dct dct').
Qed.

Lemma transform_single_rows_witness :
  WapitiFeatureEncoder.feature_names_ demo_encoder = Some ["token"; "tag"; "x"]
  ∧ WapitiFeatureEncoder.transform_single demo_encoder demo_sequence
    = OK ["the DT None"; "dog NN 3"]
  ∧ ∃ rows,
      WapitiFeatureEncoder.transform_single demo_encoder demo_sequence = OK rows
      ∧ length rows = length demo_sequence.
Proof.
  split; [reflexivity |]. split; [reflexivity |].
  destruct (transform_single_rows demo_encoder ["token"; "tag"; "x"]
              demo_sequence eq_refl) as (rows & Hrows & Hlen & _).
  exists rows. split; [exact Hrows | exact Hlen].
Defined.

(** ** Training data *)

Lemma for_each_writes (name : string) (seqs : list string) (w : world) :
  for_each (λ seq,
      do _ ← emit (Write name seq) tt;
      emit (Write name (String Py.LF (String Py.LF EmptyString))) tt) seqs w
  = (OK tt,
     w ++ flat_map (λ seq, [Write name seq;
                            Write name (String Py.LF (String Py.LF EmptyString))])
            seqs).
Proof.
  revert w. induction seqs as [|seq seqs IH]; intros w; simpl.
  - unfold ret. by rewrite app_nil_r.
  - unfold bind, emit at 1 2. simpl. rewrite IH.
    by rewrite <- !app_assoc.
Qed.

Lemma transform_fitted `{Utils} (self : WapitiFeatureEncoder.t)
    (names : list string) (X : list (list dict)) :
  WapitiFeatureEncoder.feature_names_ self = Some names →
  WapitiFeatureEncoder.transform self X
  = OK (map (map (WapitiFeatureEncoder.row names)) X).
Proof.
  intros Hn. unfold WapitiFeatureEncoder.transform.
  apply rmap_total. intros fds _. by apply transform_single_fitted.
Qed.



(** ** Validation of the development data *)

(** C9, at an input where the code departs from it: the guard of [fit]
    tests the truth values of [X_dev], [y_dev] and [out_dev], whereas the
    rest of [fit] takes development data as given when [X_dev] is not
    [None].  Called with an empty list of development observations and no
    development labels, [fit] does not raise [ValueError]: it creates and
    writes the training data file, and only then raises [TypeError], from
    pairing the observations with labels that are [None].  Called with an
    empty list of development labels and no development observations, it
    raises nothing and runs the trainer as if none had been given. *)
Theorem fit_empty_dev_data_not_rejected :
  (let r := WapitiCRF.fit demo_crf [demo_sequence] [["O"; "B"]]
              (Some []) None None [] in
   r.1.1 = Raise TypeError
   ∧ r.2 = [Create "/tmp/wapiti-data-0.txt";
            Write "/tmp/wapiti-data-0.txt"
              ("the DT None O" +:+ nl +:+ "dog NN 3 B");
            Write "/tmp/wapiti-data-0.txt" (nl +:+ nl);
            Unlink "/tmp/wapiti-data-0.txt"])
  ∧ (let r := WapitiCRF.fit demo_crf [demo_sequence] [["O"; "B"]]
                None (Some []) None [] in
     r.1.1 = OK tt
     ∧ Run ["wapiti"; "train"; "--pattern"; "/tmp/feature-template-3.txt";
            "-a"; "rprop"; "/tmp/wapiti-data-0.txt"; "model.bin"] ∈ r.2).
Proof.
  split; [split; reflexivity |]. split; [reflexivity |].
  vm_compute. apply list_elem_of_In. simpl. tauto.
Qed.

(** Where the guard of [fit] applies: when one of [X_dev], [y_dev] and
    [out_dev] is given and not empty, and [X_dev] or [y_dev] is not given,
    [fit] raises [ValueError] at once: the estimator is as it was, no file
    was created or written and no command was run. *)
Theorem fit_rejects_partial_dev_data `{Utils} `{SetOrder} `{External}
    (self : WapitiCRF.t) (X : list (list dict)) (y : list (list string))
    (X_dev : option (list (list dict))) (y_dev : option (list (list string)))
    (out_dev : option string) (w : world) :
  WapitiCRF.truthy_list X_dev || WapitiCRF.truthy_list y_dev
  || WapitiCRF.truthy_str out_dev = true →
  X_dev = None ∨ y_dev = None →
  WapitiCRF.fit self X y X_dev y_dev out_dev w
  = (Raise (ValueError "Pass both X_dev and y_dev to use the development data"),
     self, w).
Proof.
  intros Hany Hnone. unfold WapitiCRF.fit. rewrite Hany.
  destruct Hnone as [-> | ->]; cbn [andb].
  - by rewrite bool_decide_eq_true_2.
  - rewrite (bool_decide_eq_true_2 (None = None)) by done.
    by rewrite orb_true_r.
Qed.

Lemma fit_rejects_partial_dev_data_witness :
  WapitiCRF.truthy_list (Some [demo_sequence])
  || WapitiCRF.truthy_list (@None (list (list string)))
  || WapitiCRF.truthy_str None = true
  ∧ WapitiCRF.fit demo_crf [demo_sequence] [["O"; "B"]]
      (Some [demo_sequence]) None None []
    = (Raise (ValueError "Pass both X_dev and y_dev to use the development data"),
       demo_crf, []).
Proof.
  split; [reflexivity |].
  apply (fit_rejects_partial_dev_data demo_crf [demo_sequence] [["O"; "B"]]
           (Some [demo_sequence]) None None []); [reflexivity | by right].
Defined.

(** ** Labels of the tagger *)

Lemma truthy_rstrip (s : string) :
  Py.truthy (Py.rstrip s) = negb (Py.forallb_str Py.isspace s).
Proof.
  induction s as [|c s IH]; [done |]. simpl.
  destruct (Py.rstrip s) as [|c' r]; simpl in *.
  - symmetry in IH. apply negb_false_iff in IH. rewrite IH.
    by destruct (Py.isspace c).
  - symmetry in IH. apply negb_true_iff in IH. rewrite IH.
    by rewrite andb_false_r.
Qed.

Lemma forallb_isspace_lstrip (s : string) :
  Py.forallb_str Py.isspace (Py.lstrip s) = Py.forallb_str Py.isspace s.
Proof.
  unfold Py.lstrip. induction s as [|c s IH]; [done |]. simpl.
  destruct (Py.isspace c) eqn:Hc; simpl; [| by rewrite Hc].
  by destruct (Py.span Py.isspace s).
Qed.

(** [line.strip()] is true when the line has a character that is not
    whitespace. *)
Lemma truthy_strip (s : string) :
  Py.truthy (Py.strip s) = negb (Py.forallb_str Py.isspace s).
Proof. unfold Py.strip. by rewrite truthy_rstrip, forallb_isspace_lstrip. Qed.

Lemma fields_go_nonempty (cur : option string) (s : string) :
  is_Some cur ∨ Py.forallb_str Py.isspace s = false →
  Py.fields_go cur s ≠ [].
Proof.
  revert cur. induction s as [|c s IH]; intros cur Hc; simpl.
  - destruct Hc as [[w ->]|?]; done.
  - destruct (Py.isspace c) eqn:Hsp.
    + destruct cur as [w|]; [done |]. apply IH.
      destruct Hc as [[? ?]|Hc]; [done |]. right. simpl in Hc. by rewrite Hsp in Hc.
    + destruct cur; apply IH; by left.
Qed.

(** A line that passes the filter of [_get_labels] has a last field. *)
Lemma last_field_exists (line : string) :
  Py.truthy (Py.strip line) = true →
  ∃ label, last (Py.rsplit line) = Some label.
Proof.
  rewrite truthy_strip. intros Hne%negb_true_iff.
  pose proof (fields_go_nonempty None line (or_intror Hne)) as Hf.
  unfold Py.rsplit. destruct (Py.fields_go None line) as [|f fs] using rev_ind;
    [done |].
  exists f. by rewrite last_snoc.
Qed.

Lemma fields_go_app_space (cur : option string) (a : string) (c : ascii)
    (b : string) :
  Py.isspace c = true →
  Py.fields_go cur (a +:+ String c b)
  = Py.fields_go cur a ++ Py.fields_go None b.
Proof.
  intros Hc. revert cur. induction a as [|c' a IH]; intros cur.
  - rewrite append_nil_l. simpl. rewrite Hc. by destruct cur.
  - rewrite append_cons. simpl. destruct (Py.isspace c').
    + destruct cur; by rewrite IH.
    + destruct cur; by rewrite IH.
Qed.

Lemma fields_go_spaces (cur : option string) (s : string) :
  Py.forallb_str Py.isspace s = true →
  Py.fields_go cur s = match cur with Some w => [w] | None => [] end.
Proof.
  revert cur. induction s as [|c s IH]; intros cur; [done |]. simpl.
  intros [Hc Hs]%andb_prop. rewrite Hc.
  destruct cur; by rewrite (IH None Hs).
Qed.

Lemma fields_go_word (cur : option string) (word trail : string) :
  Py.forallb_str (λ c, negb (Py.isspace c)) word = true →
  Py.forallb_str Py.isspace trail = true →
  is_Some cur ∨ word ≠ EmptyString →
  Py.fields_go cur (word +:+ trail) = [default EmptyString cur +:+ word].
Proof.
  intros Hw Ht. revert cur. induction word as [|c word IH]; intros cur Hcur.
  - destruct Hcur as [[w ->]|?]; [| done].
    rewrite append_nil_l, (fields_go_spaces _ _ Ht). simpl.
    by rewrite append_nil_r.
  - simpl in Hw. apply andb_prop in Hw as [Hc Hw].
    apply negb_true_iff in Hc. rewrite append_cons. simpl. rewrite Hc.
    destruct cur as [w|]; rewrite (IH Hw) by (left; eauto); simpl.
    + by rewrite append_assoc.
    + done.
Qed.

(** The last field is the last maximal run of characters that are not
    whitespace: a word between a whitespace character (or the start of the
    line) and trailing whitespace. *)
Lemma last_field_spec (before : string) (label trail : string) :
  before = EmptyString
  ∨ (∃ b c, before = b +:+ String c EmptyString ∧ Py.isspace c = true) →
  label ≠ EmptyString →
  Py.forallb_str (λ c, negb (Py.isspace c)) label = true →
  Py.forallb_str Py.isspace trail = true →
  last (Py.rsplit (before +:+ label +:+ trail)) = Some label.
Proof.
  intros Hb Hl Hlabel Htrail. unfold Py.rsplit.
  destruct Hb as [->|(b & c & -> & Hc)].
  - rewrite append_nil_l, (fields_go_word None) by eauto. done.
  - rewrite append_assoc, append_cons, append_nil_l.
    rewrite fields_go_app_space by done.
    rewrite (fields_go_word None) by eauto. simpl. by rewrite last_snoc.
Qed.

Section ChunkerFacts.
Context {Doc : Type} `{Collaborators Doc}.

(** [_get_labels] never fails: it returns the last field of each line of
    the tagger's output that is not blank, in order. *)
Lemma _get_labels_spec (feature_lines : list string) :
  let out_lines :=
    Py.split Py.LF (label_sequence (Py.join (String Py.LF EmptyString)
                                      feature_lines)) in
  ∃ labels,
    WapitiChunker._get_labels feature_lines = OK labels
    ∧ Forall2 (λ line label, last (Py.rsplit line) = Some label)
        (filter (λ line, Py.truthy (Py.strip line) = true) out_lines) labels.
Proof.
  intros out_lines. unfold WapitiChunker._get_labels. fold out_lines.
  set (kept := filter _ out_lines).
  assert (Hkept : ∀ line, line ∈ kept →
            Py.last_item (Py.rsplit line)
            = OK (default EmptyString (last (Py.rsplit line)))
            ∧ last (Py.rsplit line)
              = Some (default EmptyString (last (Py.rsplit line)))).
  { intros line [Hline _]%list_elem_of_filter.
    destruct (last_field_exists line Hline) as [label Hlabel].
    unfold Py.last_item. by rewrite Hlabel. }
  exists (map (λ line, default EmptyString (last (Py.rsplit line))) kept).
  split.
  - apply rmap_total. intros line Hin. by apply Hkept.
  - apply Forall2_fmap_r, Forall_Forall2_diag, Forall_forall.
    intros line Hin. by apply Hkept.
Qed.

(** An exception of the encoder is the exception of [transform]. *)
Lemma transform_encoder_raises (X : Doc) (encoding : option string) (e : exn) :
  encoder_transform (fit_transform X encoding) = Raise e →
  WapitiChunker.transform X encoding = Raise e.
Proof.
  intros He. unfold WapitiChunker.transform, WapitiChunker._prepare_features.
  by rewrite He.
Qed.

(** C8: when the encoder has given its lines, the labels are the last
    fields of the lines of the tagger's output that are not blank, in order.
    If they are not as many as the feature dictionaries, [transform] raises:
    [AssertionError], unless a dictionary without a token has raised
    [KeyError] before.  Whatever [transform] returns was grouped from
    tokens and labels of equal number, paired position by position. *)
Theorem transform_checks_alignment (X : Doc) (encoding : option string)
    (feature_lines : list string) :
  let feature_dicts := fit_transform X encoding in
  let out_lines :=
    Py.split Py.LF (label_sequence (Py.join (String Py.LF EmptyString)
                                      feature_lines)) in
  encoder_transform feature_dicts = OK feature_lines →
  ∃ labels,
    WapitiChunker._get_labels feature_lines = OK labels
    ∧ Forall2 (λ line label, last (Py.rsplit line) = Some label)
        (filter (λ line, Py.truthy (Py.strip line) = true) out_lines) labels
    ∧ (length labels ≠ length feature_dicts →
       WapitiChunker.transform X encoding = Raise AssertionError
       ∨ WapitiChunker.transform X encoding = Raise (KeyError "token"))
    ∧ (∀ tokens, rmap (λ f, dict_getitem f "token") feature_dicts = OK tokens →
         length labels ≠ length tokens →
         WapitiChunker.transform X encoding = Raise AssertionError)
    ∧ (∀ pairs, WapitiChunker.transform X encoding = OK pairs →
         ∃ tokens,
           Forall2 (λ f token, dict_getitem f "token" = OK token)
                   feature_dicts tokens
           ∧ length tokens = length labels
           ∧ rmap (λ p : list value * string,
                     let* text := WapitiChunker.join_tokens p.1 in OK (text, p.2))
                  (group (zip tokens labels)) = OK pairs).
Proof.
  intros feature_dicts out_lines Henc.
  destruct (_get_labels_spec feature_lines) as (labels & Hlabels & Hlast).
  exists labels. split; [done |]. split; [done |].
  assert (Htr : WapitiChunker.transform X encoding =
            let* tokens := rmap (λ f, dict_getitem f "token") feature_dicts in
            if negb (length tokens =? length labels)%nat then Raise AssertionError
            else rmap (λ p : list value * string,
                         let* text := WapitiChunker.join_tokens p.1 in
                         OK (text, p.2))
                      (group (zip tokens labels))).
  { unfold WapitiChunker.transform, WapitiChunker._prepare_features.
    fold feature_dicts. rewrite Henc. cbn [rbind]. by rewrite Hlabels. }
  rewrite Htr. clear Htr.
  destruct (rmap (λ f, dict_getitem f "token") feature_dicts)
    as [tokens|e] eqn:Htok; cbn [rbind].
  - pose proof (rmap_length _ _ _ Htok) as Hlen.
    split_and!.
    + intros Hne. left.
      destruct (Nat.eqb_spec (length tokens) (length labels)); [lia | done].
    + intros tokens' [= <-] Hne.
      destruct (Nat.eqb_spec (length tokens) (length labels)); [lia | done].
    + intros pairs.
      destruct (Nat.eqb_spec (length tokens) (length labels)); [| done].
      cbn [negb]. intros Hpairs. exists tokens.
      split_and!; [by apply rmap_OK | done | done].
  - apply rmap_Raise in Htok as (i & f & _ & Hf & _).
    assert (e = KeyError "token") as ->.
    { clear -Hf. induction f as [|[k v] f IH]; simpl in Hf; [congruence |].
      destruct (String.eqb k "token"); [done | by apply IH]. }
    split_and!; [by right | done | done].
Qed.

End ChunkerFacts.

Lemma transform_checks_alignment_witness :
  @encoder_transform _ dropping_tagger
    (@fit_transform _ dropping_tagger "page" None) = OK ["row"; "row"]
  ∧ @WapitiChunker._get_labels _ dropping_tagger ["row"; "row"] = OK ["O"]
  ∧ @WapitiChunker.transform _ dropping_tagger "page" None = Raise AssertionError.
Proof.
  split; [reflexivity |]. split; [reflexivity |].
  destruct (@transform_checks_alignment _ dropping_tagger "page" None
              ["row"; "row"] eq_refl)
    as (labels & Hlabels & _ & _ & Hassert & _).
  injection Hlabels as <-.
  apply (Hassert [VStr "the"; VStr "dog"]); [reflexivity | simpl; lia].
Defined.

(** * Further properties *)

(** ** The pattern *)

(** X1: [match_macro] returns a match exactly when the grammar of the
    pattern has one at the start of the text, and the grammar has at most
    one: the groups and the end of a match are determined by the text, so
    the order in which a backtracking search tries the repetitions cannot
    change what is matched. *)
Theorem pattern_match_unique (s : string) (g : Re.groups) (after : string) :
  (Re.match_macro s = Some (g, after) ↔ pattern_matches s g after)
  ∧ (pattern_matches s g after →
     ∀ g' after', pattern_matches s g' after' → g' = g ∧ after' = after).
Proof.
  split; [apply match_macro_correct |].
  intros Hm g' after' Hm'.
  apply match_macro_correct in Hm, Hm'. rewrite Hm in Hm'.
  by injection Hm' as <- <-.
Qed.

Lemma pattern_match_unique_witness :
  pattern_matches "%m[ -1 , tag ,x]" (Re.Groups "%m" "-1" "tag" ",") "x]"
  ∧ ∀ g' after', pattern_matches "%m[ -1 , tag ,x]" g' after' →
      g' = Re.Groups "%m" "-1" "tag" "," ∧ after' = "x]".
Proof.
  destruct (pattern_match_unique "%m[ -1 , tag ,x]"
              (Re.Groups "%m" "-1" "tag" ",") "x]") as [Hiff Huniq].
  pose proof (proj1 Hiff eq_refl) as Hm.
  split; [exact Hm | exact (Huniq Hm)].
Defined.

(** ** Decimal digits *)

Lemma string_of_uint_decimal (d : Decimal.uint) :
  Py.forallb_str Py.isdecimal (NilEmpty.string_of_uint d) = true.
Proof. induction d; simpl; try done. Qed.

Lemma to_uint_nonnil (n : nat) : Nat.to_uint n ≠ Decimal.Nil.
Proof.
  rewrite DecimalNat.Unsigned.to_uint_alt. intros Hnil%DecimalFacts.rev_nil_inv.
  revert Hnil. induction n as [|n IH]; simpl; [done |].
  by destruct (DecimalNat.Unsigned.to_lu n).
Qed.

Lemma str_of_nat_decimal (n : nat) :
  Py.str_of_nat n ≠ EmptyString
  ∧ Py.forallb_str Py.isdecimal (Py.str_of_nat n) = true.
Proof.
  unfold Py.str_of_nat. split; [| apply string_of_uint_decimal].
  pose proof (to_uint_nonnil n). by destruct (Nat.to_uint n).
Qed.

Lemma forallb_str_impl (p q : ascii → bool) (s : string) :
  (∀ c, p c = true → q c = true) →
  Py.forallb_str p s = true → Py.forallb_str q s = true.
Proof.
  intros Hpq. induction s as [|c s IH]; [done |]. simpl.
  intros [Hc Hs]%andb_prop. by rewrite (Hpq c Hc), (IH Hs).
Qed.

Lemma isdecimal_column (c : ascii) :
  Py.isdecimal c = true → Re.is_column_char c = true.
Proof. by_cases_on_char c. Qed.

Lemma isdecimal_isdigit_char (c : ascii) :
  Py.isdecimal c = true → Py.isdigit_char c = true.
Proof. unfold Py.isdigit_char. by intros ->. Qed.

Lemma isdigit_str_of_nat (n : nat) : Py.isdigit (Py.str_of_nat n) = true.
Proof.
  destruct (str_of_nat_decimal n) as [Hne Hall]. unfold Py.isdigit.
  destruct (Py.str_of_nat n) eqn:Hs; [done |].
  apply (forallb_str_impl Py.isdecimal); [apply isdecimal_isdigit_char | exact Hall].
Qed.

(** ** What [repl] returns *)

(** X2: what [repl] returns for a match is again a macro of the pattern, in
    normal form: the same sigil, offset and closing character, no whitespace,
    and a column that is a digit string, which is the column of the match
    when that was a digit string and else the decimal index of the name.
    In the place of the match it is matched again by the scan, and [repl]
    leaves it as it is under every vocabulary, a missing one too. *)
Theorem compiled_macro_is_macro (vocabulary : gmap string nat)
    (s : string) (g : Re.groups) (after t : string) :
  pattern_matches s g after →
  repl (Some vocabulary) g = OK t →
  ∃ column',
    let g' := Re.Groups (Re.macro g) (Re.offset g) column' (Re.rest g) in
    t = Re.macro g +:+ "[" +:+ Re.offset g +:+ "," +:+ column' +:+ Re.rest g
    ∧ Py.isdigit column' = true
    ∧ (if Py.isdigit (Re.column g) then column' = Re.column g
       else ∃ i, vocabulary !! Re.column g = Some i
                 ∧ column' = Py.str_of_nat i)
    ∧ pattern_matches (t +:+ after) g' after
    ∧ Re.scan (t +:+ after) = Re.Match g' :: Re.scan after
    ∧ ∀ v', repl v' g' = OK t.
Proof.
  intros Hm Hrepl.
  destruct Hm as [k ws1 sign digits ws2 ws3 col ws4 r after
                    Hk Hws1 Hsign Hdne Hdigits Hws2 Hws3 Hcne Hcol Hws4 Hr].
  unfold repl, getitem in Hrepl. cbn [Re.column Re.macro Re.offset Re.rest] in *.
  assert (∃ column',
            t = String "%" (String k EmptyString) +:+ "[" +:+ (sign +:+ digits)
                +:+ "," +:+ column' +:+ String r EmptyString
            ∧ Py.isdigit column' = true
            ∧ column' ≠ EmptyString ∧ all_chars Re.is_column_char column'
            ∧ (if Py.isdigit col then column' = col
               else ∃ i, vocabulary !! col = Some i ∧ column' = Py.str_of_nat i))
    as (column' & -> & Hd' & Hne' & Hcol' & Hcase).
  { destruct (Py.isdigit col) eqn:Hd; cbn [negb rbind] in Hrepl.
    - injection Hrepl as <-. by exists col.
    - destruct (vocabulary !! col) as [i|] eqn:Hi; cbn [rbind] in Hrepl; [| done].
      injection Hrepl as <-. exists (Py.str_of_nat i).
      destruct (str_of_nat_decimal i) as [Hne Hall].
      split_and!; [done | apply isdigit_str_of_nat | done | | by exists i].
      apply (forallb_str_impl Py.isdecimal); [apply isdecimal_column | done]. }
  exists column'. cbn zeta.
  assert (Hshape :
    (String "%" (String k EmptyString) +:+ "[" +:+ (sign +:+ digits)
     +:+ "," +:+ column' +:+ String r EmptyString) +:+ after
    = String "%" (String k (String "["
        (EmptyString +:+ sign +:+ digits +:+ EmptyString +:+
         String "," (EmptyString +:+ column' +:+ EmptyString +:+ String r after))))).
  { by repeat (rewrite ?append_assoc, ?append_cons, ?append_nil_l). }
  assert (Hm' : pattern_matches
            ((String "%" (String k EmptyString) +:+ "[" +:+ (sign +:+ digits)
              +:+ "," +:+ column' +:+ String r EmptyString) +:+ after)
            (Re.Groups (String "%" (String k EmptyString)) (sign +:+ digits)
                       column' (String r EmptyString)) after).
  { rewrite Hshape. by constructor. }
  split_and!; [done | done | done | done | |].
  - apply scan_match. by apply match_macro_correct.
  - intros v'. unfold repl. cbn [Re.column Re.macro Re.offset Re.rest].
    by rewrite Hd'.
Qed.

Lemma compiled_macro_is_macro_witness :
  pattern_matches "%m[ -1 , tag ,x]" (Re.Groups "%m" "-1" "tag" ",") "x]"
  ∧ repl (Some vocab_token_tag) (Re.Groups "%m" "-1" "tag" ",")
    = OK "%m[-1,1,"
  ∧ ∃ column',
      Py.isdigit column' = true
      ∧ pattern_matches ("%m[-1,1," +:+ "x]")
          (Re.Groups "%m" "-1" column' ",") "x]".
Proof.
  pose proof (proj1 (match_macro_correct "%m[ -1 , tag ,x]"
                       (Re.Groups "%m" "-1" "tag" ",") "x]") eq_refl) as Hm.
  split; [exact Hm |]. split; [reflexivity |].
  destruct (compiled_macro_is_macro vocab_token_tag "%m[ -1 , tag ,x]"
              (Re.Groups "%m" "-1" "tag" ",") "x]" "%m[-1,1," Hm eq_refl)
    as (column' & _ & Hd & _ & Hm' & _).
  exists column'. split; [exact Hd | exact Hm'].
Defined.

(** ** Which names a compilation looks up *)

Lemma rmap_app {A B} (f : A → result B) (xs ys : list A) :
  rmap f (xs ++ ys)
  = let* xs' := rmap f xs in let* ys' := rmap f ys in OK (xs' ++ ys').
Proof.
  induction xs as [|x xs IH]; simpl.
  - by destruct (rmap f ys).
  - destruct (f x); simpl; [| done]. rewrite IH.
    destruct (rmap f xs); simpl; [| done]. by destruct (rmap f ys).
Qed.

Lemma rmap_ext {A B} (f g : A → result B) (xs : list A) :
  Forall (λ x, f x = g x) xs → rmap f xs = rmap g xs.
Proof.
  induction 1 as [|x xs Hx _ IH]; simpl; [done |]. by rewrite Hx, IH.
Qed.

Lemma repl_digit (vocabulary : option (gmap string nat)) (g : Re.groups) :
  Py.isdigit (Re.column g) = true →
  repl vocabulary g
  = OK (Re.macro g +:+ "[" +:+ Re.offset g +:+ "," +:+ Re.column g +:+ Re.rest g).
Proof. intros Hd. unfold repl. by rewrite Hd. Qed.

Lemma repl_name (vocabulary : option (gmap string nat)) (g : Re.groups) :
  Py.isdigit (Re.column g) = false →
  repl vocabulary g
  = let* i := getitem vocabulary (Re.column g) in
    OK (Re.macro g +:+ "[" +:+ Re.offset g +:+ "," +:+ Py.str_of_nat i
        +:+ Re.rest g).
Proof.
  intros Hd. unfold repl. rewrite Hd. cbn [negb].
  by destruct (getitem vocabulary (Re.column g)).
Qed.

(** Whether the pieces of a line can all be replaced is whether the names
    they look up can all be looked up, and the exception is the same. *)
Lemma pieces_outcome (vocabulary : option (gmap string nat))
    (ps : list Re.piece) :
  match rmap (getitem vocabulary) (omap looked_up ps) with
  | Raise e => rmap (Re.on_piece (repl vocabulary)) ps = Raise e
  | OK _ => ∃ parts, rmap (Re.on_piece (repl vocabulary)) ps = OK parts
  end.
Proof.
  induction ps as [|[c|g] ps IH]; [by exists [] | |].
  - cbn [omap list_omap looked_up rmap Re.on_piece rbind].
    destruct (rmap (getitem vocabulary) (omap looked_up ps)).
    + destruct IH as [parts ->]. by eexists.
    + by rewrite IH.
  - cbn [omap list_omap looked_up rmap Re.on_piece].
    destruct (Py.isdigit (Re.column g)) eqn:Hd.
    + rewrite (repl_digit _ _ Hd). cbn [rbind].
      destruct (rmap (getitem vocabulary) (omap looked_up ps)).
      * destruct IH as [parts ->]. by eexists.
      * by rewrite IH.
    + rewrite (repl_name _ _ Hd). cbn [rmap].
      destruct (getitem vocabulary (Re.column g)); cbn [rbind]; [| done].
      destruct (rmap (getitem vocabulary) (omap looked_up ps)); cbn [rbind].
      * destruct IH as [parts ->]. by eexists.
      * by rewrite IH.
Qed.

Lemma line_outcome (vocabulary : option (gmap string nat)) (line : string) :
  match rmap (getitem vocabulary) (line_names line) with
  | Raise e => prepare_line vocabulary line = Raise e
  | OK _ => ∃ out, prepare_line vocabulary line = OK out
  end.
Proof.
  unfold line_names, prepare_line.
  destruct (_wapiti_line_is_comment line); cbn [negb rmap]; [by eexists |].
  rewrite sub_unfold. pose proof (pieces_outcome vocabulary (Re.scan line)) as Hp.
  destruct (rmap (getitem vocabulary) (omap looked_up (Re.scan line))).
  - destruct Hp as [parts ->]. by eexists.
  - by rewrite Hp.
Qed.

Lemma template_outcome (vocabulary : option (gmap string nat))
    (template : string) :
  match rmap (getitem vocabulary) (template_names template) with
  | Raise e => prepare_wapiti_template template vocabulary = Raise e
  | OK _ => ∃ out, prepare_wapiti_template template vocabulary = OK out
  end.
Proof.
  rewrite prepare_wapiti_template_unfold. unfold template_names.
  assert (Hlines : match rmap (getitem vocabulary)
                           (concat (map line_names (Py.splitlines template))) with
                   | Raise e => rmap (prepare_line vocabulary)
                                  (Py.splitlines template) = Raise e
                   | OK _ => ∃ lines, rmap (prepare_line vocabulary)
                                        (Py.splitlines template) = OK lines
                   end).
  { induction (Py.splitlines template) as [|line lines IH]; [by exists [] |].
    cbn [map concat rmap]. rewrite rmap_app.
    pose proof (line_outcome vocabulary line) as Hl.
    destruct (rmap (getitem vocabulary) (line_names line)); cbn [rbind].
    - destruct Hl as [out ->]. cbn [rbind].
      destruct (rmap (getitem vocabulary) (concat (map line_names lines)));
        cbn [rbind].
      + destruct IH as [lines' ->]. by eexists.
      + by rewrite IH.
    - by rewrite Hl. }
  destruct (rmap (getitem vocabulary) _).
  - destruct Hlines as [lines ->]. by eexists.
  - by rewrite Hlines.
Qed.

Lemma lookups_first_unknown (vocabulary : gmap string nat)
    (names : list string) :
  match first_unknown vocabulary names with
  | Some k => rmap (getitem (Some vocabulary)) names = Raise (KeyError k)
  | None => ∃ indices, rmap (getitem (Some vocabulary)) names = OK indices
  end.
Proof.
  unfold first_unknown. induction names as [|k names IH]; [by exists [] |].
  rewrite filter_cons. cbn [rmap getitem].
  destruct (decide (vocabulary !! k = None)) as [Hk|Hk].
  - by rewrite Hk.
  - destruct (vocabulary !! k) as [i|]; [| done]. cbn [rbind].
    destruct (head (filter _ names)).
    + by rewrite IH.
    + destruct IH as [indices ->]. by eexists.
Qed.

(** X3: a compilation succeeds exactly when every feature name that the
    template refers to on a line that is not a comment is a key of the
    vocabulary; when one is not, the exception is [KeyError] for the first
    such name in reading order. *)
Theorem compilation_fails_at_first_unknown (vocabulary : gmap string nat)
    (template : string) :
  match first_unknown vocabulary (template_names template) with
  | Some k =>
      prepare_wapiti_template template (Some vocabulary) = Raise (KeyError k)
      ∧ k ∈ template_names template ∧ vocabulary !! k = None
  | None =>
      (∃ out, prepare_wapiti_template template (Some vocabulary) = OK out)
      ∧ Forall (λ k, is_Some (vocabulary !! k)) (template_names template)
  end.
Proof.
  pose proof (template_outcome (Some vocabulary) template) as Ht.
  pose proof (lookups_first_unknown vocabulary (template_names template)) as Hf.
  unfold first_unknown in *.
  destruct (head (filter _ (template_names template))) as [k|] eqn:Hhead.
  - rewrite Hf in Ht. split; [done |].
    apply head_Some_elem_of, list_elem_of_filter in Hhead as [Hk Hin]. done.
  - destruct Hf as [indices Hf]. rewrite Hf in Ht. split; [done |].
    apply head_None in Hhead. apply Forall_forall. intros k Hk.
    destruct (vocabulary !! k) eqn:Hv; [by eexists |].
    exfalso. assert (Hin : k ∈ filter (λ k, vocabulary !! k = None)
                               (template_names template))
      by (by apply list_elem_of_filter).
    rewrite Hhead in Hin. by apply elem_of_nil in Hin.
Qed.

(** X4: an encoder that was never fitted compiles a template that refers
    to no feature name, with the result it has under every vocabulary, and
    raises [TypeError] for a template that refers to one. *)
Theorem unfitted_prepare_template (move_to_front : list string)
    (template : string) :
  let we := WapitiFeatureEncoder.__init__ move_to_front in
  match template_names template with
  | [] => ∃ out, WapitiFeatureEncoder.prepare_template we template = OK out
                 ∧ ∀ vocabulary,
                     prepare_wapiti_template template vocabulary = OK out
  | _ :: _ => WapitiFeatureEncoder.prepare_template we template = Raise TypeError
  end.
Proof.
  intros we. unfold WapitiFeatureEncoder.prepare_template. cbn.
  pose proof (template_outcome None template) as Ht.
  destruct (template_names template) as [|k names] eqn:Hnames.
  - destruct Ht as [out Hout]. exists out. split; [done |].
    intros vocabulary. rewrite <- Hout.
    rewrite !prepare_wapiti_template_unfold. f_equal.
    apply rmap_ext, Forall_forall. intros line Hin.
    assert (Hline : line_names line = []).
    { unfold template_names in Hnames.
      apply list_elem_of_lookup in Hin as [i Hi].
      destruct (line_names line) as [|k ks] eqn:Hl; [done |].
      assert (k ∈ concat (map line_names (Py.splitlines template))).
      { apply list_elem_of_In, in_concat. exists (line_names line). split.
        - apply in_map, list_elem_of_In, list_elem_of_lookup. eauto.
        - rewrite Hl. by left. }
      rewrite Hnames in H. by apply elem_of_nil in H. }
    unfold prepare_line. unfold line_names in Hline.
    destruct (_wapiti_line_is_comment line); cbn [negb]; [done |].
    rewrite !sub_unfold. f_equal. apply rmap_ext, Forall_forall.
    intros [c|g] Hp; [done |]. simpl. unfold repl.
    destruct (Py.isdigit (Re.column g)) eqn:Hd; [done |].
    exfalso. assert (Hk : Re.column g ∈ omap looked_up (Re.scan line)).
    { apply list_elem_of_omap. exists (Re.Match g). split; [done |].
      simpl. by rewrite Hd. }
    rewrite Hline in Hk. by apply elem_of_nil in Hk.
  - exact Ht.
Qed.

(** X5: a compilation depends on the vocabulary only through the feature
    names the template refers to: two vocabularies (or missing ones) under
    which these names have the same index, or fail in the same way, give
    the same result, output or exception. *)
Theorem compilation_depends_on_used_names
    (v1 v2 : option (gmap string nat)) (template : string) :
  Forall (λ k, getitem v1 k = getitem v2 k) (template_names template) →
  prepare_wapiti_template template v1 = prepare_wapiti_template template v2.
Proof.
  intros Hagree. rewrite !prepare_wapiti_template_unfold. f_equal.
  apply rmap_ext, Forall_forall. intros line Hline.
  unfold prepare_line.
  destruct (_wapiti_line_is_comment line) eqn:Hc; cbn [negb]; [done |].
  rewrite !sub_unfold. f_equal. apply rmap_ext, Forall_forall.
  intros [c|g] Hp; [done |]. cbn [Re.on_piece].
  destruct (Py.isdigit (Re.column g)) eqn:Hd.
  - by rewrite !repl_digit.
  - rewrite !repl_name by done.
    rewrite (proj1 (Forall_forall _ _) Hagree (Re.column g)); [done |].
    apply list_elem_of_In, in_concat. exists (line_names line). split.
    + by apply in_map, list_elem_of_In.
    + apply list_elem_of_In. unfold line_names. rewrite Hc.
      apply list_elem_of_omap. exists (Re.Match g). split; [done |].
      simpl. by rewrite Hd.
Qed.

Lemma compilation_depends_on_used_names_witness :
  template_names template_with_comment = ["tag"]
  ∧ vocab_other !! "token" ≠ vocab_token_tag !! "token"
  ∧ prepare_wapiti_template template_with_comment (Some vocab_token_tag)
    = prepare_wapiti_template template_with_comment (Some vocab_other).
Proof.
  split; [reflexivity |]. split; [discriminate |].
  apply (compilation_depends_on_used_names (Some vocab_token_tag)
           (Some vocab_other) template_with_comment).
  change (template_names template_with_comment) with ["tag"].
  apply Forall_cons. split; [reflexivity | constructor].
Defined.

(** ** Names and indices after [partial_fit] *)

Lemma partial_fit_fields `{SetOrder} (self : WapitiFeatureEncoder.t)
    (X : list (list dict)) :
  ∃ names,
    WapitiFeatureEncoder.feature_names_
      (WapitiFeatureEncoder.partial_fit self X) = Some names
    ∧ WapitiFeatureEncoder.vocabulary_
        (WapitiFeatureEncoder.partial_fit self X)
      = Some (WapitiFeatureEncoder.dict_of_enumerate names)
    ∧ ∀ k, k ∈ names ↔
        k ∈ WapitiFeatureEncoder.move_to_front self
        ∨ k ∈ default [] (WapitiFeatureEncoder.feature_names_ self)
        ∨ ∃ (fds : list dict) (d : dict),
            fds ∈ X ∧ d ∈ fds ∧ k ∈ dict_keys d.
Proof.
  unfold WapitiFeatureEncoder.partial_fit. eexists. split; [reflexivity |].
  split; [reflexivity |]. intros k.
  rewrite elem_of_app, elem_of_tuple_of_set, elem_of_fold_keys.
  rewrite !elem_of_list_to_set.
  destruct (decide (k ∈ WapitiFeatureEncoder.move_to_front self)) as [Hm|Hm];
    [by split; left |].
  split.
  - intros [?|[[_ Hk]|(_ & _ & [Hk|(fds & Hin & Hk)])]];
      [done | by right; left | by right; left |].
    right; right. apply elem_of_get_combined_keys in Hk as (d & ? & ?). eauto.
  - intros [?|Hk]; [done |]. right. destruct X as [|fds0 X].
    + left. split; [done |]. destruct Hk as [?|(? & ? & Hin & _)]; [done |].
      by apply elem_of_nil in Hin.
    + right. split; [done |]. split; [done |].
      destruct Hk as [?|(fds & d & ? & ? & ?)]; [by left |].
      right. exists fds. split; [done |].
      apply elem_of_get_combined_keys. eauto.
Qed.

(** X6: [partial_fit] never forgets a name.  After any call, on any
    encoder and with any batches, the names of the encoder are exactly the
    front names, the names it had, and the keys of the observations of the
    batches; and the vocabulary has an index for exactly these names. *)
Theorem partial_fit_keeps_all_names `{SetOrder}
    (self : WapitiFeatureEncoder.t) (X : list (list dict)) :
  ∃ names v,
    WapitiFeatureEncoder.feature_names_
      (WapitiFeatureEncoder.partial_fit self X) = Some names
    ∧ WapitiFeatureEncoder.vocabulary_
        (WapitiFeatureEncoder.partial_fit self X) = Some v
    ∧ ∀ k,
        (k ∈ names ↔
           k ∈ WapitiFeatureEncoder.move_to_front self
           ∨ k ∈ default [] (WapitiFeatureEncoder.feature_names_ self)
           ∨ ∃ (fds : list dict) (d : dict),
               fds ∈ X ∧ d ∈ fds ∧ k ∈ dict_keys d)
        ∧ (is_Some (v !! k) ↔ k ∈ names).
Proof.
  destruct (partial_fit_fields self X) as (names & Hn & Hv & Hnames).
  exists names, (WapitiFeatureEncoder.dict_of_enumerate names).
  split_and!; [done | done |]. intros k. split; [apply Hnames |].
  split.
  - intros [i Hi]. apply dict_of_enumerate_lookup in Hi as [Hi _].
    apply list_elem_of_lookup. eauto.
  - intros [i Hi]%list_elem_of_lookup.
    destruct (dict_of_enumerate_last names k i Hi) as (j & Hj & _). eauto.
Qed.

Lemma islinebreak_isspace (c : ascii) :
  Py.islinebreak c = true → Py.isspace c = true.
Proof. by_cases_on_char c. Qed.

Lemma column_not_linebreak (c : ascii) :
  Re.is_column_char c = true → negb (Py.islinebreak c) = true.
Proof.
  intros Hc. apply negb_true_iff. destruct (Py.islinebreak c) eqn:Hb; [| done].
  apply islinebreak_isspace in Hb. apply column_not_space in Hc. congruence.
Qed.

Lemma forallb_str_app (p : ascii → bool) (a b : string) :
  Py.forallb_str p (a +:+ b) = Py.forallb_str p a && Py.forallb_str p b.
Proof.
  induction a as [|c a IH]; [done |]. rewrite append_cons. simpl.
  by rewrite IH, andb_assoc.
Qed.

(** A text without line boundaries is one line. *)
Lemma splitlines_single (s : string) :
  Py.forallb_str (λ c, negb (Py.islinebreak c)) s = true →
  s ≠ EmptyString → Py.splitlines s = [s].
Proof.
  induction s as [|c s IH]; [done |]. simpl.
  intros [Hc Hs]%andb_prop _. apply negb_true_iff in Hc. rewrite Hc.
  destruct s as [|c' s']; [done |]. by rewrite IH.
Qed.

(** The template that is one macro at position 0 on a named column. *)
Lemma prepare_named_column (v : gmap string nat) (k : string) (i : nat) :
  v !! k = Some i →
  k ≠ EmptyString → all_chars Re.is_column_char k → Py.isdigit k = false →
  prepare_wapiti_template ("%x[0," +:+ k +:+ "]") (Some v)
  = OK ("%x[0," +:+ Py.str_of_nat i +:+ "]").
Proof.
  intros Hv Hne Hcol Hd. rewrite prepare_wapiti_template_unfold.
  rewrite splitlines_single; [| | done].
  2:{ rewrite forallb_str_app. apply andb_true_intro. split; [done |].
      rewrite forallb_str_app. apply andb_true_intro. split; [| done].
      apply (forallb_str_impl Re.is_column_char);
        [apply column_not_linebreak | done]. }
  cbn [rmap]. unfold prepare_line.
  replace (_wapiti_line_is_comment ("%x[0," +:+ k +:+ "]")) with false
    by (by rewrite line_is_comment_lstrip).
  cbn [negb]. rewrite sub_unfold.
  assert (Hm : pattern_matches ("%x[0," +:+ k +:+ "]")
                 (Re.Groups "%x" "0" k "]") EmptyString).
  { apply (pattern_matches_intro "x" EmptyString EmptyString "0" EmptyString
             EmptyString k EmptyString "]" EmptyString); try done. by left. }
  apply match_macro_correct, scan_match in Hm. rewrite Hm.
  cbn [rmap Re.on_piece Re.scan Re.scan_from].
  rewrite repl_name by done. cbn [Re.column]. unfold getitem. rewrite Hv.
  reflexivity.
Qed.

(** The template that is one macro at position 0 on a column given by a
    digit string: the column is not looked up. *)
Lemma prepare_digit_column (vocabulary : option (gmap string nat)) (k : string) :
  all_chars Re.is_column_char k → Py.isdigit k = true →
  prepare_wapiti_template ("%x[0," +:+ k +:+ "]") vocabulary
  = OK ("%x[0," +:+ k +:+ "]").
Proof.
  intros Hcol Hd.
  assert (Hne : k ≠ EmptyString) by (by intros ->).
  rewrite prepare_wapiti_template_unfold.
  rewrite splitlines_single; [| | done].
  2:{ rewrite forallb_str_app. apply andb_true_intro. split; [done |].
      rewrite forallb_str_app. apply andb_true_intro. split; [| done].
      apply (forallb_str_impl Re.is_column_char);
        [apply column_not_linebreak | done]. }
  cbn [rmap]. unfold prepare_line.
  replace (_wapiti_line_is_comment ("%x[0," +:+ k +:+ "]")) with false
    by (by rewrite line_is_comment_lstrip).
  cbn [negb]. rewrite sub_unfold.
  assert (Hm : pattern_matches ("%x[0," +:+ k +:+ "]")
                 (Re.Groups "%x" "0" k "]") EmptyString).
  { apply (pattern_matches_intro "x" EmptyString EmptyString "0" EmptyString
             EmptyString k EmptyString "]" EmptyString); try done. by left. }
  apply match_macro_correct, scan_match in Hm. rewrite Hm.
  cbn [rmap Re.on_piece Re.scan Re.scan_from].
  rewrite repl_digit by done. reflexivity.
Qed.

(** X7: the indices of the vocabulary are the columns of the rows.  After
    any call of [partial_fit], when the vocabulary gives index [i] to a name,
    the name is at position [i] in the list of names, and column [i] of the
    row of every observation is [tostr] of the value the observation has
    under that name: the column that is found by splitting the row at
    spaces, when no column contains a space.  A macro on that name is
    compiled to a macro on column [i] when the name can stand in a macro and
    be looked up: it is not empty, has no closing bracket, comma or
    whitespace, and is not a digit string.  A name that is a digit string is
    not looked up: the macro on it is left as it is, whatever [i] is. *)
Theorem index_matches_column `{SetOrder} `{Utils}
    (self : WapitiFeatureEncoder.t) (X : list (list dict))
    (v : gmap string nat) (k : string) (i : nat) :
  let we := WapitiFeatureEncoder.partial_fit self X in
  WapitiFeatureEncoder.vocabulary_ we = Some v →
  v !! k = Some i →
  ∃ names,
    WapitiFeatureEncoder.feature_names_ we = Some names
    ∧ names !! i = Some k
    ∧ (∀ dct : dict,
         ∃ cols,
           WapitiFeatureEncoder.transform_single we [dct]
           = OK [Py.join " " cols]
           ∧ cols !! i = Some (tostr (dict_get dct k))
           ∧ (Forall (λ col, Py.contains " " col = false) cols →
              Py.split " " (Py.join " " cols) !! i
              = Some (tostr (dict_get dct k))))
    ∧ (k ≠ EmptyString → all_chars Re.is_column_char k →
       Py.isdigit k = false →
       WapitiFeatureEncoder.prepare_template we ("%x[0," +:+ k +:+ "]")
       = OK ("%x[0," +:+ Py.str_of_nat i +:+ "]"))
    ∧ (all_chars Re.is_column_char k → Py.isdigit k = true →
       WapitiFeatureEncoder.prepare_template we ("%x[0," +:+ k +:+ "]")
       = OK ("%x[0," +:+ k +:+ "]")).
Proof.
  intros we Hv Hi.
  destruct (partial_fit_fields self X) as (names & Hn & Hv' & _).
  fold we in Hn, Hv'. rewrite Hv in Hv'. injection Hv' as ->.
  apply dict_of_enumerate_lookup in Hi as Hk. destruct Hk as [Hk _].
  exists names. split_and!; [done | done | | |].
  - intros dct. exists (map (λ key, tostr (dict_get dct key)) names).
    assert (Hcol : map (λ key, tostr (dict_get dct key)) names !! i
                   = Some (tostr (dict_get dct k)))
      by (by rewrite list_lookup_fmap, Hk).
    split_and!; [| done |].
    + by rewrite (transform_single_fitted we names [dct] Hn).
    + intros Hall. rewrite split_join; [done | | done].
      destruct names; [done | done].
  - intros Hne Hcol Hd. unfold WapitiFeatureEncoder.prepare_template.
    rewrite Hv. by apply prepare_named_column.
  - intros Hcol Hd. unfold WapitiFeatureEncoder.prepare_template.
    by apply prepare_digit_column.
Qed.

Lemma index_matches_column_witness :
  WapitiFeatureEncoder.vocabulary_ demo_encoder
  = Some (WapitiFeatureEncoder.dict_of_enumerate ["token"; "tag"; "x"])
  ∧ WapitiFeatureEncoder.dict_of_enumerate ["token"; "tag"; "x"] !! "x" = Some 2
  ∧ WapitiFeatureEncoder.prepare_template demo_encoder "%x[0,x]" = OK "%x[0,2]"
  ∧ ∃ names,
      WapitiFeatureEncoder.feature_names_ demo_encoder = Some names
      ∧ names !! 2 = Some "x".
Proof.
  assert (Hv : WapitiFeatureEncoder.vocabulary_ demo_encoder
               = Some (WapitiFeatureEncoder.dict_of_enumerate
                         ["token"; "tag"; "x"])) by reflexivity.
  split; [exact Hv |]. split; [reflexivity |]. split; [reflexivity |].
  destruct (index_matches_column (WapitiFeatureEncoder.__init__ ["token"; "tag"])
              [demo_sequence]
              (WapitiFeatureEncoder.dict_of_enumerate ["token"; "tag"; "x"])
              "x" 2 Hv eq_refl) as (names & Hn & Hk & _).
  exists names. split; [exact Hn | exact Hk].
Defined.

(** X8: [reset] followed by [fit] starts afresh, as [WapitiCRF.fit] relies
    on: whatever the encoder had learnt, and although [reset] leaves the old
    vocabulary in place, the names afterwards are those of a new encoder
    with the same front names fitted on the same batches: the front names
    in their order (when they are distinct), then the observed keys that
    are not front names, each once, and nothing of the earlier names; the
    vocabulary gives every name its position. *)
Theorem reset_then_fit_starts_afresh `{SetOrder}
    (self : WapitiFeatureEncoder.t) (X : list (list dict)) :
  NoDup (WapitiFeatureEncoder.move_to_front self) →
  let mtf := WapitiFeatureEncoder.move_to_front self in
  let we := WapitiFeatureEncoder.fit (WapitiFeatureEncoder.reset self) X in
  we = WapitiFeatureEncoder.fit (WapitiFeatureEncoder.__init__ mtf) X
  ∧ ∃ others v,
      WapitiFeatureEncoder.feature_names_ we = Some (mtf ++ others)
      ∧ WapitiFeatureEncoder.vocabulary_ we = Some v
      ∧ NoDup (mtf ++ others)
      ∧ (∀ i k, v !! k = Some i ↔ (mtf ++ others) !! i = Some k)
      ∧ (∀ k, k ∈ others ↔
           (k ∉ mtf)
           ∧ ∃ (fds : list dict) (d : dict),
               fds ∈ X ∧ d ∈ fds ∧ k ∈ dict_keys d).
Proof.
  intros Hnd mtf we. split; [reflexivity |].
  destruct (partial_fit_pinned (WapitiFeatureEncoder.reset self) X)
    as (others & v & Hn & Hv & Hnd' & Hidx & Hothers); [by right | done |].
  exists others, v. split_and!; try done.
  intros k. rewrite Hothers. simpl. split.
  - intros [Hm [Hk|Hk]]; [by apply elem_of_nil in Hk | done].
  - intros [Hm Hk]. split; [done | by right].
Qed.

Lemma reset_then_fit_starts_afresh_witness :
  NoDup (WapitiFeatureEncoder.move_to_front demo_encoder)
  ∧ WapitiFeatureEncoder.feature_names_
      (WapitiFeatureEncoder.fit (WapitiFeatureEncoder.reset demo_encoder)
         other_batch) = Some ["token"; "tag"; "y"]
  ∧ WapitiFeatureEncoder.feature_names_
      (WapitiFeatureEncoder.fit demo_encoder other_batch)
    = Some ["token"; "tag"; "y"; "x"]
  ∧ ∃ others,
      WapitiFeatureEncoder.feature_names_
        (WapitiFeatureEncoder.fit (WapitiFeatureEncoder.reset demo_encoder)
           other_batch) = Some (["token"; "tag"] ++ others)
      ∧ NoDup (["token"; "tag"] ++ others).
Proof.
  assert (Hnd : NoDup (WapitiFeatureEncoder.move_to_front demo_encoder)).
  { simpl. apply NoDup_cons. split; [| apply NoDup_singleton].
    by intros [=]%list_elem_of_singleton. }
  split; [exact Hnd |]. split; [reflexivity |]. split; [reflexivity |].
  destruct (reset_then_fit_starts_afresh demo_encoder other_batch Hnd)
    as [_ (others & v & Hn & _ & Hnd' & _)].
  exists others. split; [exact Hn | exact Hnd'].
Defined.

(** ** Rows before and after fitting *)

Lemma transform_single_unfitted `{Utils} (self : WapitiFeatureEncoder.t)
    (feature_dicts : list dict) :
  WapitiFeatureEncoder.feature_names_ self = None →
  WapitiFeatureEncoder.transform_single self feature_dicts
  = match feature_dicts with [] => OK [] | _ :: _ => Raise TypeError end.
Proof.
  intros Hn. unfold WapitiFeatureEncoder.transform_single.
  destruct feature_dicts; simpl; [done |]. by rewrite Hn.
Qed.

(** X9: [transform] returns normally exactly when the encoder was fitted or
    no sequence has an observation.  It then gives one list of rows for
    each sequence, in order, with one row for each observation; after
    fitting the row is that of the observation.  An encoder that was never
    fitted raises [TypeError] as soon as a sequence has an observation. *)
Theorem transform_needs_fit `{Utils} (self : WapitiFeatureEncoder.t)
    (X : list (list dict)) :
  match WapitiFeatureEncoder.feature_names_ self with
  | Some names =>
      ∃ rows, WapitiFeatureEncoder.transform self X = OK rows
              ∧ Forall2 (λ fds r, r = map (WapitiFeatureEncoder.row names) fds)
                  X rows
  | None =>
      if forallb (λ fds : list dict, bool_decide (fds = [])) X
      then WapitiFeatureEncoder.transform self X = OK (map (λ _, []) X)
      else WapitiFeatureEncoder.transform self X = Raise TypeError
  end.
Proof.
  destruct (WapitiFeatureEncoder.feature_names_ self) as [names|] eqn:Hn.
  - exists (map (map (WapitiFeatureEncoder.row names)) X).
    split; [by apply transform_fitted |].
    apply Forall2_fmap_r, Forall_Forall2_diag, Forall_forall. done.
  - unfold WapitiFeatureEncoder.transform.
    induction X as [|fds X IH]; [done |]. cbn [forallb map rmap].
    rewrite (transform_single_unfitted self fds Hn).
    destruct fds as [|dct fds]; [| done].
    rewrite bool_decide_eq_true_2 by done. cbn [andb rbind].
    destruct (forallb _ X); by rewrite IH.
Qed.

(** ** The unigram template *)

Lemma splitlines_line (l rest : string) :
  no_linebreak l →
  Py.splitlines (l +:+ String Py.LF rest) = l :: Py.splitlines rest.
Proof.
  unfold no_linebreak. induction l as [|c l IH]; intros Hl.
  - rewrite append_nil_l. by destruct rest.
  - simpl in Hl. apply andb_prop in Hl as [Hc Hl]. apply negb_true_iff in Hc.
    rewrite append_cons. cbn [Py.splitlines]. by rewrite Hc, (IH Hl).
Qed.

(** Lines that are joined by LF and ended by one are what [splitlines]
    gives back. *)
Lemma splitlines_join (ls : list string) :
  ls ≠ [] → Forall no_linebreak ls →
  Py.splitlines (Py.join (String Py.LF EmptyString) ls
                 +:+ String Py.LF EmptyString) = ls.
Proof.
  induction ls as [|x ls IH]; [done |]. intros _ Hall.
  apply Forall_cons in Hall as [Hx Hall]. destruct ls as [|y ls].
  - cbn [Py.join]. by rewrite splitlines_line.
  - rewrite join_cons2, !append_assoc, append_cons, append_nil_l.
    rewrite splitlines_line by done. f_equal. by apply IH.
Qed.

Lemma join_leading_newline (h : string) (ls : list string) :
  Py.join (String Py.LF EmptyString) (String Py.LF h :: ls)
  = Py.join (String Py.LF EmptyString) (EmptyString :: h :: ls).
Proof.
  destruct ls as [|l ls].
  - reflexivity.
  - rewrite !join_cons2. by rewrite !append_cons, !append_nil_l.
Qed.

Lemma no_linebreak_app (a b : string) :
  no_linebreak a → no_linebreak b → no_linebreak (a +:+ b).
Proof.
  unfold no_linebreak. intros Ha Hb. by rewrite forallb_str_app, Ha, Hb.
Qed.

Lemma no_linebreak_str_of_nat (n : nat) : no_linebreak (Py.str_of_nat n).
Proof.
  destruct (str_of_nat_decimal n) as [_ Hall].
  apply (forallb_str_impl Py.isdecimal); [| done].
  intros c Hc. apply column_not_linebreak. by apply isdecimal_column.
Qed.

(** X10: the unigram template of a fitted encoder, read line by line: an
    empty line, the comment line, then one line for each feature name in
    the order of the columns, the line at column [col] being
    [{scope}feat:{name}=%x[0,{col}]] for the name at position [col]; the
    template ends with a line boundary.  (The scope and the names are taken
    without line boundaries.) *)
Theorem unigram_template_lines (self : WapitiFeatureEncoder.t)
    (names : list string) (scope : string) :
  WapitiFeatureEncoder.feature_names_ self = Some names →
  no_linebreak scope → Forall no_linebreak names →
  ∃ t,
    WapitiFeatureEncoder.unigram_features_template self scope = OK t
    ∧ Py.endswith Py.LF t = true
    ∧ ∃ lines,
        Py.splitlines t
        = EmptyString :: "# Unigrams for all custom features" :: lines
        ∧ length lines = length names
        ∧ ∀ (col : nat) name, names !! col = Some name →
            lines !! col
            = Some (scope +:+ "feat:" +:+ name +:+ "=%x[0,"
                    +:+ Py.str_of_nat col +:+ "]").
Proof.
  intros Hn Hscope Hnames. unfold WapitiFeatureEncoder.unigram_features_template.
  rewrite Hn. eexists. split; [reflexivity |].
  set (lines := imap _ names).
  assert (Hlines : Forall no_linebreak lines).
  { apply Forall_lookup. intros col line Hcol. unfold lines in Hcol.
    rewrite list_lookup_imap in Hcol.
    destruct (names !! col) as [name|] eqn:Hname; [| done].
    injection Hcol as <-.
    pose proof (proj1 (Forall_lookup _ _) Hnames col name Hname) as Hn'.
    repeat apply no_linebreak_app; try done. apply no_linebreak_str_of_nat. }
  rewrite join_leading_newline. split.
  - generalize (Py.join (String Py.LF EmptyString)
                 (EmptyString :: "# Unigrams for all custom features" :: lines)).
    intros s. induction s as [|c s IH]; [done |].
    rewrite append_cons. cbn [Py.endswith].
    destruct (s +:+ String Py.LF EmptyString) eqn:Hs; [| done].
    by destruct s.
  - exists lines. split_and!.
    + apply splitlines_join; [done |]. by repeat constructor.
    + apply length_imap.
    + intros col name Hname. unfold lines.
      by rewrite list_lookup_imap, Hname.
Qed.

Lemma unigram_template_lines_witness :
  WapitiFeatureEncoder.feature_names_ demo_encoder = Some ["token"; "tag"; "x"]
  ∧ WapitiFeatureEncoder.unigram_features_template demo_encoder "u"
    = OK (nl +:+ "# Unigrams for all custom features" +:+ nl
          +:+ "ufeat:token=%x[0,0]" +:+ nl +:+ "ufeat:tag=%x[0,1]" +:+ nl
          +:+ "ufeat:x=%x[0,2]" +:+ nl)
  ∧ ∃ t, WapitiFeatureEncoder.unigram_features_template demo_encoder "u" = OK t
         ∧ Py.endswith Py.LF t = true.
Proof.
  split; [reflexivity |]. split; [reflexivity |].
  destruct (unigram_template_lines demo_encoder ["token"; "tag"; "x"] "u")
    as (t & Ht & Hend & _).
  - reflexivity.
  - reflexivity.
  - repeat constructor.
  - exists t. split; [exact Ht | exact Hend].
Defined.

(** ** The files and commands of [fit] *)

Section FitFacts.
Context `{Utils} `{SetOrder} `{External}.

Lemma fit_encoder_fitted (enc : WapitiFeatureEncoder.t) (X : list (list dict)) :
  ∃ names, WapitiFeatureEncoder.feature_names_
             (WapitiFeatureEncoder.fit enc X) = Some names.
Proof. by eexists. Qed.

Lemma create_data_file_fitted (self : WapitiCRF.t) (names : list string)
    (X : list (list dict)) (y : list (list string)) (w : world) :
  WapitiFeatureEncoder.feature_names_ (WapitiCRF.feature_encoder_ self)
  = Some names →
  let name := temp_name (WapitiCRF.tempdir_ self) "wapiti-data-" ".txt" w in
  WapitiCRF._create_wapiti_data_file self X (Some y) w
  = (OK name,
     w ++ Create name ::
       flat_map (λ seq, [Write name seq;
                         Write name (String Py.LF (String Py.LF EmptyString))])
         (zip_with WapitiCRF._to_train_sequence
            (map (map (WapitiFeatureEncoder.row names)) X) y)).
Proof.
  intros Hn name. unfold WapitiCRF._create_wapiti_data_file.
  unfold bind at 1. unfold lift at 1. rewrite (transform_fitted _ _ _ Hn).
  unfold bind at 1. unfold lift at 1.
  unfold bind at 1. unfold WapitiCRF.new_temp at 1. fold name.
  unfold bind at 1. rewrite for_each_writes. unfold ret.
  rewrite <- app_assoc. simpl. do 4 f_equal.
  generalize (map (map (WapitiFeatureEncoder.row names)) X). clear.
  intros rows. revert y. induction rows as [|r rows IH]; intros [|t y]; simpl;
    [done | done | done |]. by rewrite IH.
Qed.

Lemma create_template_file_ok (self : WapitiCRF.t) (names : list string)
    (template : string) (w : world) :
  WapitiFeatureEncoder.feature_names_ (WapitiCRF.feature_encoder_ self)
  = Some names →
  WapitiFeatureEncoder.prepare_template (WapitiCRF.feature_encoder_ self)
    (WapitiCRF.feature_template_ self) = OK template →
  let name := temp_name (WapitiCRF.tempdir_ self) "feature-template-" ".txt" w in
  WapitiCRF._create_wapiti_feature_template_file self w
  = (OK name,
     w ++ Create name :: Write name template :: unigram_writes self name).
Proof.
  intros Hn Ht name. unfold WapitiCRF._create_wapiti_feature_template_file.
  unfold bind at 1. unfold WapitiCRF.new_temp at 1. fold name.
  unfold bind at 1. unfold lift at 1. rewrite Ht.
  unfold bind at 1. unfold emit at 1. unfold unigram_writes.
  destruct (WapitiCRF.unigrams_scope_ self) as [scope|].
  - unfold WapitiFeatureEncoder.unigram_features_template. rewrite Hn.
    unfold bind, lift, emit, ret. by rewrite <- !app_assoc.
  - unfold bind, ret. by rewrite <- !app_assoc.
Qed.

Lemma create_template_file_raise (self : WapitiCRF.t) (e : exn) (w : world) :
  WapitiFeatureEncoder.prepare_template (WapitiCRF.feature_encoder_ self)
    (WapitiCRF.feature_template_ self) = Raise e →
  let name := temp_name (WapitiCRF.tempdir_ self) "feature-template-" ".txt" w in
  WapitiCRF._create_wapiti_feature_template_file self w
  = (Raise e, w ++ [Create name]).
Proof.
  intros Ht name. unfold WapitiCRF._create_wapiti_feature_template_file.
  unfold bind at 1. unfold WapitiCRF.new_temp at 1. fold name.
  unfold bind at 1. unfold lift at 1. by rewrite Ht.
Qed.

End FitFacts.

Section FitTraces.
Context `{Utils} `{SetOrder} `{External}.

(** X11: [fit] without development data, when the template compiles.  The
    encoder is reset and fitted on [X]; the training data file and the
    template file are created and written, in this order; the trainer is
    run once, on these two files, with the caller's arguments and the model
    file name; and then, if [unlink_temp_] is set, both files are unlinked,
    whether the trainer has failed or not.  What [fit] returns or raises is
    what running the trainer returns or raises. *)
Theorem fit_without_dev_data (self : WapitiCRF.t) (X : list (list dict))
    (y : list (list string)) (w : world) (template : string) :
  let enc := WapitiFeatureEncoder.fit
               (WapitiFeatureEncoder.reset (WapitiCRF.feature_encoder_ self)) X in
  let self' := WapitiCRF.with_encoder self enc in
  WapitiFeatureEncoder.prepare_template enc (WapitiCRF.feature_template_ self)
  = OK template →
  ∃ rows,
    WapitiFeatureEncoder.transform enc X = OK rows
    ∧ let train_fn :=
        temp_name (WapitiCRF.tempdir_ self) "wapiti-data-" ".txt" w in
      let w1 :=
        w ++ Create train_fn ::
          flat_map (λ seq, [Write train_fn seq;
                            Write train_fn
                              (String Py.LF (String Py.LF EmptyString))])
            (zip_with WapitiCRF._to_train_sequence rows y) in
      let template_fn :=
        temp_name (WapitiCRF.tempdir_ self) "feature-template-" ".txt" w1 in
      let w2 :=
        w1 ++ Create template_fn :: Write template_fn template
           :: unigram_writes self' template_fn in
      let argv :=
        WapitiCRF.WAPITI_CMD ::
          ["train"; "--pattern"; template_fn] ++ WapitiCRF.wapiti_args_ self
          ++ [train_fn; WapitiCRF.model_filname_ self] in
      WapitiCRF.fit self X y None None None w
      = (run_command argv (WapitiCRF.verbose_ self) w2, self',
         w2 ++ Run argv ::
           (if WapitiCRF.unlink_temp_ self
            then [Unlink train_fn; Unlink template_fn] else [])).
Proof.
  intros enc self' Ht.
  destruct (fit_encoder_fitted
              (WapitiFeatureEncoder.reset (WapitiCRF.feature_encoder_ self)) X)
    as [names Hn]. fold enc in Hn.
  exists (map (map (WapitiFeatureEncoder.row names)) X).
  split; [by apply transform_fitted |].
  intros train_fn w1 template_fn w2 argv.
  unfold WapitiCRF.fit. cbn [WapitiCRF.truthy_list WapitiCRF.truthy_str orb andb].
  fold enc. fold self'.
  pose proof (create_data_file_fitted self' names X y w Hn) as Hdata.
  pose proof (create_template_file_ok self' names template w1 Hn Ht) as Htpl.
  cbn zeta in Hdata, Htpl.
  change (WapitiCRF.tempdir_ self') with (WapitiCRF.tempdir_ self) in *.
  fold train_fn in Hdata. fold w1 in Hdata.
  fold template_fn in Htpl. fold w2 in Htpl.
  unfold finally, WapitiCRF.fit_body.
  unfold bind at 1. unfold WapitiCRF.on_world at 1. cbn [fst snd].
  rewrite Hdata.
  unfold bind at 1. unfold WapitiCRF.to_unlink_append at 1. cbn [fst snd app].
  unfold bind at 1. unfold ret at 1.
  unfold bind at 1. unfold WapitiCRF.on_world at 1. cbn [fst snd].
  rewrite Htpl.
  unfold bind at 1. unfold WapitiCRF.to_unlink_append at 1. cbn [fst snd app].
  cbn [WapitiCRF.truthy_str].
  unfold bind at 1. unfold WapitiCRF.on_world at 1. cbn [fst snd].
  unfold WapitiCRF.run_wapiti at 1.
  change (WapitiCRF.verbose_ self') with (WapitiCRF.verbose_ self).
  change (WapitiCRF.wapiti_args_ self') with (WapitiCRF.wapiti_args_ self).
  change (WapitiCRF.model_filname_ self') with (WapitiCRF.model_filname_ self).
  change (WapitiCRF.unlink_temp_ self') with (WapitiCRF.unlink_temp_ self).
  change (WapitiCRF.WAPITI_CMD :: _ ++ [train_fn; _]) with argv.
  unfold WapitiCRF.fit_cleanup.
  change (WapitiCRF.unlink_temp_ self') with (WapitiCRF.unlink_temp_ self).
  destruct (run_command argv (WapitiCRF.verbose_ self) w2) as [[]|e];
    unfold ret; destruct (WapitiCRF.unlink_temp_ self); cbn [fst snd map];
    rewrite <- ?app_assoc; reflexivity.
Qed.

(** X12: [fit] without development data, when the compilation of the
    template raises (the template names a feature that no observation has):
    [fit] raises that exception and the trainer is not run.  The training
    data file was written before and is unlinked if [unlink_temp_] is set;
    the template file was created before the compilation and stays, for it
    was not yet in the list of files to unlink. *)
Theorem fit_template_error (self : WapitiCRF.t) (X : list (list dict))
    (y : list (list string)) (w : world) (e : exn) :
  let enc := WapitiFeatureEncoder.fit
               (WapitiFeatureEncoder.reset (WapitiCRF.feature_encoder_ self)) X in
  let self' := WapitiCRF.with_encoder self enc in
  WapitiFeatureEncoder.prepare_template enc (WapitiCRF.feature_template_ self)
  = Raise e →
  ∃ rows,
    WapitiFeatureEncoder.transform enc X = OK rows
    ∧ let train_fn :=
        temp_name (WapitiCRF.tempdir_ self) "wapiti-data-" ".txt" w in
      let w1 :=
        w ++ Create train_fn ::
          flat_map (λ seq, [Write train_fn seq;
                            Write train_fn
                              (String Py.LF (String Py.LF EmptyString))])
            (zip_with WapitiCRF._to_train_sequence rows y) in
      let template_fn :=
        temp_name (WapitiCRF.tempdir_ self) "feature-template-" ".txt" w1 in
      WapitiCRF.fit self X y None None None w
      = (Raise e, self',
         w1 ++ Create template_fn ::
           (if WapitiCRF.unlink_temp_ self then [Unlink train_fn] else [])).
Proof.
  intros enc self' Ht.
  destruct (fit_encoder_fitted
              (WapitiFeatureEncoder.reset (WapitiCRF.feature_encoder_ self)) X)
    as [names Hn]. fold enc in Hn.
  exists (map (map (WapitiFeatureEncoder.row names)) X).
  split; [by apply transform_fitted |].
  intros train_fn w1 template_fn.
  unfold WapitiCRF.fit. cbn [WapitiCRF.truthy_list WapitiCRF.truthy_str orb andb].
  fold enc. fold self'.
  pose proof (create_data_file_fitted self' names X y w Hn) as Hdata.
  pose proof (create_template_file_raise self' e w1 Ht) as Htpl.
  cbn zeta in Hdata, Htpl.
  change (WapitiCRF.tempdir_ self') with (WapitiCRF.tempdir_ self) in *.
  fold train_fn in Hdata. fold w1 in Hdata. fold template_fn in Htpl.
  unfold finally, WapitiCRF.fit_body.
  unfold bind at 1. unfold WapitiCRF.on_world at 1. cbn [fst snd].
  rewrite Hdata.
  unfold bind at 1. unfold WapitiCRF.to_unlink_append at 1. cbn [fst snd app].
  unfold bind at 1. unfold ret at 1.
  unfold bind at 1. unfold WapitiCRF.on_world at 1. cbn [fst snd].
  rewrite Htpl. unfold WapitiCRF.fit_cleanup.
  change (WapitiCRF.unlink_temp_ self') with (WapitiCRF.unlink_temp_ self).
  destruct (WapitiCRF.unlink_temp_ self); cbn [fst snd map];
    rewrite <- ?app_assoc; reflexivity.
Qed.

End FitTraces.

Lemma fit_without_dev_data_witness :
  WapitiFeatureEncoder.prepare_template
    (WapitiFeatureEncoder.fit
       (WapitiFeatureEncoder.reset (WapitiCRF.feature_encoder_ demo_crf))
       [demo_sequence])
    (WapitiCRF.feature_template_ demo_crf) = OK "*:Pos-1 L=%x[-1,1]"
  ∧ (WapitiCRF.fit demo_crf [demo_sequence] [["O"; "B"]] None None None []).1.1
    = OK tt
  ∧ ∃ rows,
      WapitiFeatureEncoder.transform
        (WapitiFeatureEncoder.fit
           (WapitiFeatureEncoder.reset (WapitiCRF.feature_encoder_ demo_crf))
           [demo_sequence]) [demo_sequence] = OK rows.
Proof.
  assert (Ht : WapitiFeatureEncoder.prepare_template
                 (WapitiFeatureEncoder.fit
                    (WapitiFeatureEncoder.reset
                       (WapitiCRF.feature_encoder_ demo_crf)) [demo_sequence])
                 (WapitiCRF.feature_template_ demo_crf)
               = OK "*:Pos-1 L=%x[-1,1]") by reflexivity.
  split; [exact Ht |]. split; [reflexivity |].
  destruct (fit_without_dev_data demo_crf [demo_sequence] [["O"; "B"]] []
              "*:Pos-1 L=%x[-1,1]" Ht) as (rows & Hrows & _).
  exists rows. exact Hrows.
Defined.

Lemma fit_template_error_witness :
  WapitiFeatureEncoder.prepare_template
    (WapitiFeatureEncoder.fit
       (WapitiFeatureEncoder.reset
          (WapitiCRF.feature_encoder_ crf_unknown_feature)) [demo_sequence])
    (WapitiCRF.feature_template_ crf_unknown_feature)
  = Raise (KeyError "pos")
  ∧ (WapitiCRF.fit crf_unknown_feature [demo_sequence] [["O"; "B"]]
       None None None []).1.1 = Raise (KeyError "pos")
  ∧ ∃ rows,
      WapitiFeatureEncoder.transform
        (WapitiFeatureEncoder.fit
           (WapitiFeatureEncoder.reset
              (WapitiCRF.feature_encoder_ crf_unknown_feature))
           [demo_sequence]) [demo_sequence] = OK rows.
Proof.
  assert (Ht : WapitiFeatureEncoder.prepare_template
                 (WapitiFeatureEncoder.fit
                    (WapitiFeatureEncoder.reset
                       (WapitiCRF.feature_encoder_ crf_unknown_feature))
                    [demo_sequence])
                 (WapitiCRF.feature_template_ crf_unknown_feature)
               = Raise (KeyError "pos")) by reflexivity.
  split; [exact Ht |]. split; [reflexivity |].
  destruct (fit_template_error crf_unknown_feature [demo_sequence]
              [["O"; "B"]] [] (KeyError "pos") Ht) as (rows & Hrows & _).
  exists rows. exact Hrows.
Defined.

Section FitDevTraces.
Context `{Utils} `{SetOrder} `{External}.

(** X13: [fit] with development observations and labels and no output
    path, when the template compiles.  After the training data file, the
    development data file is written in the same way, then an output file
    is created, then the template file.  The trainer is run with
    [--devel] and the development data file; if it does not fail, the
    tagger is run in check mode on the development data file and the output
    file.  At the end, if [unlink_temp_] is set, the training data file,
    the output file and the template file are unlinked (the development
    data file is not in the list of files to unlink). *)
Theorem fit_with_dev_data (self : WapitiCRF.t) (X : list (list dict))
    (y : list (list string)) (X_dev : list (list dict))
    (y_dev : list (list string)) (w : world) (template : string) :
  let enc := WapitiFeatureEncoder.fit
               (WapitiFeatureEncoder.reset (WapitiCRF.feature_encoder_ self)) X in
  let self' := WapitiCRF.with_encoder self enc in
  WapitiFeatureEncoder.prepare_template enc (WapitiCRF.feature_template_ self)
  = OK template →
  ∃ names,
    WapitiFeatureEncoder.feature_names_ enc = Some names
    ∧ let data_writes (name : string) (X : list (list dict))
          (y : list (list string)) :=
        Create name ::
          flat_map (λ seq, [Write name seq;
                            Write name (String Py.LF (String Py.LF EmptyString))])
            (zip_with WapitiCRF._to_train_sequence
               (map (map (WapitiFeatureEncoder.row names)) X) y) in
      let train_fn :=
        temp_name (WapitiCRF.tempdir_ self) "wapiti-data-" ".txt" w in
      let w1 := w ++ data_writes train_fn X y in
      let dev_fn :=
        temp_name (WapitiCRF.tempdir_ self) "wapiti-data-" ".txt" w1 in
      let w2 := w1 ++ data_writes dev_fn X_dev y_dev in
      let out_dev :=
        temp_name (WapitiCRF.tempdir_ self) "wapiti-dev-data" ".txt" w2 in
      let w3 := w2 ++ [Create out_dev] in
      let template_fn :=
        temp_name (WapitiCRF.tempdir_ self) "feature-template-" ".txt" w3 in
      let w4 :=
        w3 ++ Create template_fn :: Write template_fn template
           :: unigram_writes self' template_fn in
      let argv_train :=
        WapitiCRF.WAPITI_CMD ::
          ["train"; "--pattern"; template_fn] ++ WapitiCRF.wapiti_args_ self
          ++ ["--devel"; dev_fn] ++ [train_fn; WapitiCRF.model_filname_ self] in
      let argv_check :=
        [WapitiCRF.WAPITI_CMD; "label"; "-m"; WapitiCRF.model_filname_ self;
         "--check"; dev_fn; out_dev] in
      let cleanup :=
        if WapitiCRF.unlink_temp_ self
        then [Unlink train_fn; Unlink out_dev; Unlink template_fn] else [] in
      dev_fn ≠ EmptyString →
      WapitiCRF.fit self X y (Some X_dev) (Some y_dev) None w
      = match run_command argv_train (WapitiCRF.verbose_ self) w4 with
        | OK _ =>
            (run_command argv_check (WapitiCRF.verbose_ self)
               (w4 ++ [Run argv_train]),
             self', w4 ++ Run argv_train :: Run argv_check :: cleanup)
        | Raise e => (Raise e, self', w4 ++ Run argv_train :: cleanup)
        end.
Proof.
  intros enc self' Ht.
  destruct (fit_encoder_fitted
              (WapitiFeatureEncoder.reset (WapitiCRF.feature_encoder_ self)) X)
    as [names Hn]. fold enc in Hn.
  exists names. split; [done |].
  intros data_writes train_fn w1 dev_fn w2 out_dev w3 template_fn w4
    argv_train argv_check cleanup Hdev.
  unfold WapitiCRF.fit.
  rewrite (bool_decide_eq_false_2 (Some X_dev = None)) by done.
  rewrite (bool_decide_eq_false_2 (Some y_dev = None)) by done.
  rewrite andb_false_r. fold enc. fold self'.
  pose proof (create_data_file_fitted self' names X y w Hn) as Hdata.
  pose proof (create_data_file_fitted self' names X_dev y_dev w1 Hn) as Hdevdata.
  pose proof (create_template_file_ok self' names template w3 Hn Ht) as Htpl.
  cbn zeta in Hdata, Hdevdata, Htpl.
  change (WapitiCRF.tempdir_ self') with (WapitiCRF.tempdir_ self) in *.
  fold train_fn in Hdata. fold (data_writes train_fn X y) in Hdata.
  fold w1 in Hdata.
  fold dev_fn in Hdevdata. fold (data_writes dev_fn X_dev y_dev) in Hdevdata.
  fold w2 in Hdevdata.
  fold template_fn in Htpl. fold w4 in Htpl.
  unfold finally, WapitiCRF.fit_body.
  change (WapitiCRF.tempdir_ self') with (WapitiCRF.tempdir_ self).
  unfold bind at 1. unfold WapitiCRF.on_world at 1. cbn [fst snd].
  rewrite Hdata.
  unfold bind at 1. unfold WapitiCRF.to_unlink_append at 1. cbn [fst snd app].
  unfold bind at 1. unfold bind at 1.
  unfold WapitiCRF.on_world at 1. cbn [fst snd]. rewrite Hdevdata.
  unfold bind at 1. unfold WapitiCRF.on_world at 1.
  unfold WapitiCRF.new_temp at 1. cbn [fst snd]. fold out_dev. fold w3.
  unfold bind at 1. unfold WapitiCRF.to_unlink_append at 1. cbn [fst snd app].
  unfold ret at 1.
  unfold bind at 1. unfold WapitiCRF.on_world at 1. cbn [fst snd].
  rewrite Htpl.
  unfold bind at 1. unfold WapitiCRF.to_unlink_append at 1. cbn [fst snd app].
  assert (Htruthy : WapitiCRF.truthy_str (Some dev_fn) = true)
    by (simpl; by destruct dev_fn).
  rewrite Htruthy.
  unfold bind, WapitiCRF.on_world, WapitiCRF.run_wapiti, WapitiCRF.fit_cleanup,
    ret.
  cbn [fst snd default from_option]. unfold id.
  change (WapitiCRF.verbose_ self') with (WapitiCRF.verbose_ self).
  change (WapitiCRF.wapiti_args_ self') with (WapitiCRF.wapiti_args_ self).
  change (WapitiCRF.model_filname_ self') with (WapitiCRF.model_filname_ self).
  change (WapitiCRF.unlink_temp_ self') with (WapitiCRF.unlink_temp_ self).
  unfold argv_train, argv_check, cleanup.
  cbn [app]. rewrite <- ?app_assoc. cbn [app].
  destruct (run_command _ (WapitiCRF.verbose_ self) w4) as [[]|e];
    [destruct (run_command _ (WapitiCRF.verbose_ self) _) |];
    destruct (WapitiCRF.unlink_temp_ self); cbn [fst snd map app];
    rewrite <- ?app_assoc; reflexivity.
Qed.

End FitDevTraces.

Lemma fit_with_dev_data_witness :
  WapitiFeatureEncoder.prepare_template
    (WapitiFeatureEncoder.fit
       (WapitiFeatureEncoder.reset (WapitiCRF.feature_encoder_ demo_crf))
       [demo_sequence])
    (WapitiCRF.feature_template_ demo_crf) = OK "*:Pos-1 L=%x[-1,1]"
  ∧ (WapitiCRF.fit demo_crf [demo_sequence] [["O"; "B"]]
       (Some [demo_sequence]) (Some [["O"]]) None []).1.1 = OK tt.
Proof.
  assert (Ht : WapitiFeatureEncoder.prepare_template
                 (WapitiFeatureEncoder.fit
                    (WapitiFeatureEncoder.reset
                       (WapitiCRF.feature_encoder_ demo_crf)) [demo_sequence])
                 (WapitiCRF.feature_template_ demo_crf)
               = OK "*:Pos-1 L=%x[-1,1]") by reflexivity.
  split; [exact Ht |].
  destruct (fit_with_dev_data demo_crf [demo_sequence] [["O"; "B"]]
              [demo_sequence] [["O"]] [] "*:Pos-1 L=%x[-1,1]" Ht)
    as (names & Hn & Hfit).
  injection Hn as <-. cbn zeta in Hfit.
  rewrite Hfit; [reflexivity | discriminate].
Defined.

(** ** Reading labels back *)

Lemma contains_app (c : ascii) (a b : string) :
  Py.contains c (a +:+ b) = Py.contains c a || Py.contains c b.
Proof.
  induction a as [|c' a IH]; [done |]. rewrite append_cons. simpl.
  by rewrite IH, orb_assoc.
Qed.

Lemma nonspace_no_linefeed (s : string) :
  all_chars (λ c, negb (Py.isspace c)) s → Py.contains Py.LF s = false.
Proof.
  unfold all_chars. induction s as [|c s IH]; [done |]. simpl.
  intros [Hc Hs]%andb_prop. rewrite (IH Hs), orb_false_r.
  apply Ascii.eqb_neq. intros ->. done.
Qed.

Lemma nonspace_not_blank (a label : string) :
  label ≠ EmptyString → all_chars (λ c, negb (Py.isspace c)) label →
  Py.truthy (Py.strip (a +:+ label)) = true.
Proof.
  intros Hne Hl. rewrite truthy_strip, forallb_str_app.
  destruct label as [|c label]; [done |].
  unfold all_chars in Hl. simpl in Hl. apply andb_prop in Hl as [Hc _].
  apply negb_true_iff in Hc. simpl. rewrite Hc. by rewrite andb_false_r.
Qed.

Lemma train_lines_read_back (ps : list (string * string)) :
  Forall (λ p : string * string, is_label p.2) ps →
  rmap (λ line, Py.last_item (Py.rsplit line))
       (map (λ p : string * string, p.1 +:+ " " +:+ p.2) ps) = OK ps.*2.
Proof.
  induction 1 as [|[row label] ps [Hne Hl] _ IH]; [done |].
  cbn [map rmap fmap list_fmap fst snd]. rewrite IH.
  replace (row +:+ " " +:+ label)
    with ((row +:+ " ") +:+ label +:+ EmptyString)
    by (by rewrite append_nil_r, append_assoc).
  unfold Py.last_item. rewrite last_field_spec; [done | | done | done | done].
  right. by exists row, " "%char.
Qed.

Lemma filter_train_lines (ps : list (string * string)) :
  Forall (λ p : string * string, is_label p.2) ps →
  filter (λ line, Py.truthy (Py.strip line) = true)
         (map (λ p : string * string, p.1 +:+ " " +:+ p.2) ps)
  = map (λ p : string * string, p.1 +:+ " " +:+ p.2) ps.
Proof.
  induction 1 as [|[row label] ps [Hne Hl] _ IH]; [done |].
  cbn [map fst snd]. rewrite filter_cons, IH.
  rewrite decide_True; [done |].
  replace (row +:+ " " +:+ label) with ((row +:+ " ") +:+ label)
    by (by rewrite append_assoc).
  by apply nonspace_not_blank.
Qed.

Lemma filter_blanks (blanks : list string) :
  Forall (λ b, all_chars Py.isspace b) blanks →
  filter (λ line, Py.truthy (Py.strip line) = true) blanks = [].
Proof.
  induction 1 as [|b blanks Hb _ IH]; [done |].
  rewrite filter_cons, IH. rewrite decide_False; [done |].
  rewrite truthy_strip. unfold all_chars in Hb. by rewrite Hb.
Qed.

Lemma Forall_zip_snd {A B} (P : B → Prop) (xs : list A) (ys : list B) :
  Forall P ys → Forall (λ p : A * B, P p.2) (zip xs ys).
Proof.
  intros Hys. revert xs. induction Hys as [|y ys Hy _ IH]; intros [|x xs];
    simpl; constructor; [done | apply IH].
Qed.

Lemma Forall_zip_fst {A B} (P : A → Prop) (xs : list A) (ys : list B) :
  Forall P xs → Forall (λ p : A * B, P p.1) (zip xs ys).
Proof.
  intros Hxs. revert ys. induction Hxs as [|x xs Hx _ IH]; intros [|y ys];
    simpl; constructor; [done | apply IH].
Qed.

Section ReadBack.
Context {Doc : Type} `{Collaborators Doc}.

(** X14: labels written as [_to_train_sequence] writes them are read back
    by [_get_labels].  When the answer of the tagger consists of lines made
    of a row, a space and a label, as the lines of a training sequence are,
    followed by any number of blank lines, [_get_labels] returns the labels
    of these lines in order: those of [zip(rows, labels)].  The rows may
    contain spaces but no LF; the labels are not empty and have no
    whitespace. *)
Theorem get_labels_reads_train_lines (feature_lines rows labels blanks
    : list string) :
  label_sequence (Py.join (String Py.LF EmptyString) feature_lines)
  = Py.join (String Py.LF EmptyString)
      (WapitiCRF.train_lines rows labels ++ blanks) →
  Forall (λ row, Py.contains Py.LF row = false) rows →
  Forall is_label labels →
  Forall (λ b, all_chars Py.isspace b ∧ Py.contains Py.LF b = false) blanks →
  WapitiChunker._get_labels feature_lines = OK (zip rows labels).*2
  ∧ ((length labels ≤ length rows)%nat →
     WapitiChunker._get_labels feature_lines = OK labels).
Proof.
  intros Hout Hrows Hlabels Hblanks.
  assert (Hget : WapitiChunker._get_labels feature_lines
                 = OK (zip rows labels).*2).
  { unfold WapitiChunker._get_labels. rewrite Hout.
    unfold WapitiCRF.train_lines.
    set (ps := zip rows labels).
    assert (Hps : Forall (λ p : string * string, is_label p.2) ps)
      by (by apply Forall_zip_snd).
    set (lines := map (λ p : string * string, p.1 +:+ " " +:+ p.2) ps ++ blanks).
    assert (Hfilter : filter (λ line, Py.truthy (Py.strip line) = true)
                        (Py.split Py.LF (Py.join (String Py.LF EmptyString) lines))
                      = map (λ p : string * string, p.1 +:+ " " +:+ p.2) ps).
    { destruct lines as [|l ls] eqn:Hlines.
      - apply app_eq_nil in Hlines as [-> _]. reflexivity.
      - rewrite split_join; [| done |].
        + rewrite <- Hlines. unfold lines.
          rewrite filter_app, filter_train_lines, filter_blanks;
            [by rewrite app_nil_r | | done].
          eapply Forall_impl; [exact Hblanks |]. by intros b [? _].
        + rewrite <- Hlines. unfold lines. apply Forall_app. split.
          * apply Forall_fmap.
            pose proof (Forall_zip_fst _ rows labels Hrows) as Hfst.
            fold ps in Hfst. clear -Hfst Hps.
            induction ps as [|[row label] ps IH]; [constructor |].
            apply Forall_cons in Hfst as [Hr Hfst].
            apply Forall_cons in Hps as [[_ Hl] Hps].
            constructor; [| by apply IH]. simpl in *.
            rewrite !contains_app, Hr, (nonspace_no_linefeed label Hl). done.
          * eapply Forall_impl; [exact Hblanks |]. by intros b [_ ?]. }
    rewrite Hfilter. by apply train_lines_read_back. }
  split; [exact Hget |]. intros Hlen. rewrite Hget. f_equal.
  by apply snd_zip.
Qed.

End ReadBack.

Lemma get_labels_reads_train_lines_witness :
  @label_sequence _ labelling_tagger (Py.join nl ["the DT"; "dog NN"])
  = Py.join nl (WapitiCRF.train_lines ["the DT"; "dog NN"] ["O"; "B-X"]
                ++ [EmptyString])
  ∧ @WapitiChunker._get_labels _ labelling_tagger ["the DT"; "dog NN"]
    = OK ["O"; "B-X"]
  ∧ @WapitiChunker.transform _ labelling_tagger "page" None
    = OK [("the", "O"); ("dog", "B-X")].
Proof.
  split; [reflexivity |]. split; [| reflexivity].
  destruct (@get_labels_reads_train_lines _ labelling_tagger
              ["the DT"; "dog NN"] ["the DT"; "dog NN"] ["O"; "B-X"]
              [EmptyString]) as [_ Hlabels].
  - reflexivity.
  - repeat constructor.
  - repeat constructor; discriminate.
  - repeat constructor.
  - apply Hlabels. simpl. lia.
Defined.
